(** * Evaluators of pytensortools: the degeneracy scorer and the p-value evaluator

    A shallow embedding of [pytensortools/evaluation/run_evaluator.py]
    ([WorstDegeneracy._evaluate] and [PValue._evaluate]) and the properties
    the specification states about them.

    Numbers are IEEE 754 binary64 values, as numpy's [float64]: the kernel's
    primitive floats.  Python exceptions are values of [exn]; a computation
    that may raise returns a [result].  The calls to the external metric
    [pytensor.metrics._factor_match_score] are recorded in a log, so that
    statements about which component pairs are scored can be made. *)

From Stdlib Require Import String Ascii DecimalString Uint63.
From Stdlib Require Import List ZArith Arith Lia Bool Floats Permutation Sorted.
Import ListNotations.

Set Implicit Arguments.

(* ===================================================================== *)
(** * Part I: definitions *)
(* ===================================================================== *)

(** ** Exceptions and results *)

(** The exceptions of the evaluators.  The first five are raised by Python
    and numpy themselves ([NameError] stands for the whole class, its
    subclass [UnboundLocalError] included).  The last three are the names of
    the specification's error taxonomy; the source has no [raise] statement
    and defines no exception class. *)
Inductive exn : Set :=
| IndexError
| NameError
| TypeError
| ValueError
| AssertionError
| ShapeMismatchError
| InvalidModeIndexError
| InvalidInputError.

Inductive result (A : Type) : Type :=
| Ok (a : A)
| Raise (e : exn).

Arguments Ok {A} a.
Arguments Raise {A} e.

Definition rbind {A B : Type} (r : result A) (k : A -> result B) : result B :=
  match r with
  | Ok a => k a
  | Raise e => Raise e
  end.

Declare Scope result_scope.
Delimit Scope result_scope with result.
Notation "x <- r ;; k" := (rbind r (fun x => k))
  (at level 61, r at next level, right associativity) : result_scope.

(** Reading a local variable: [None] is a name that was never assigned. *)
Definition read_local {A : Type} (v : option A) : result A :=
  match v with
  | Some a => Ok a
  | None => Raise NameError
  end.

(** [xs[i]] for a Python list and a non-negative index. *)
Definition getitem {A : Type} (xs : list A) (i : nat) : result A :=
  match nth_error xs i with
  | Some a => Ok a
  | None => Raise IndexError
  end.

(** ** numpy arrays *)

(** A two-dimensional [float64] array of shape [(length rows, shape1)]:
    every row holds [shape1] numbers.  [shape1] is a field because an array
    without rows still has a column count. *)
Record ndarray2 : Set := {
  rows : list (list float);
  shape1 : nat
}.

Definition shape0 (fm : ndarray2) : nat := length (rows fm).

(** Entry [p] of every row. *)
Definition column_values (p : nat) (fm : ndarray2) : list float :=
  map (fun r => nth p r 0%float) (rows fm).

(** [fm[:, p]] for a non-negative [p]: numpy raises [IndexError] when the
    column index is out of bounds for axis 1. *)
Definition column (fm : ndarray2) (p : nat) : result (list float) :=
  if p <? shape1 fm then Ok (column_values p fm) else Raise IndexError.

(** [fm[idx]] for a list [idx] of non-negative row indices. *)
Fixpoint take_rows (fm : list (list float)) (idx : list nat)
  : result (list (list float)) :=
  match idx with
  | [] => Ok []
  | i :: idx' =>
      (r <- getitem fm i ;;
       rs <- take_rows fm idx' ;;
       Ok (r :: rs))%result
  end.

(** [range(n)], and [m in ms] for a sequence of integers. *)
Definition pyrange (n : nat) : list Z := map Z.of_nat (seq 0 n).

Definition py_in (m : nat) (ms : list Z) : bool :=
  existsb (Z.eqb (Z.of_nat m)) ms.

(** The decomposition loaded from the final checkpoint. *)
Record Decomposition : Set := {
  factor_matrices : list ndarray2
}.

(** ** Computations that log the calls of the external metric *)

(** A computation with results in [A] and the log of its external calls,
    each an event of [E], in the order they were made. *)
Definition M (E A : Type) : Type := (list E * result A)%type.

Definition ret {E A : Type} (a : A) : M E A := ([], Ok a).

Definition lift {E A : Type} (r : result A) : M E A := ([], r).

Definition bind {E A B : Type} (m : M E A) (k : A -> M E B) : M E B :=
  match m with
  | (l, Ok a) => let (l', r) := k a in (l ++ l', r)
  | (l, Raise e) => (l, Raise e)
  end.

(** The value [a] of an external call, recorded as the event [e]. *)
Definition logged {E A : Type} (e : E) (a : A) : M E A := ([e], Ok a).

Definition calls {E A : Type} (m : M E A) : list E := fst m.
Definition outcome {E A : Type} (m : M E A) : result A := snd m.

Declare Scope log_scope.
Delimit Scope log_scope with log.
Notation "x <- m ;; k" := (bind m (fun x => k))
  (at level 61, m at next level, right associativity) : log_scope.

(** [for x in xs: body], the loop's local variables threaded through. *)
Fixpoint for_each {E X S : Type} (xs : list X) (body : X -> S -> M E S)
  (s : S) : M E S :=
  match xs with
  | [] => ret s
  | x :: xs' => (s' <- body x s ;; for_each xs' body s')%log
  end.

(** [itertools.permutations(range(R), r=2)]: the ordered pairs of distinct
    indices below [R], in lexicographic order. *)
Definition permutations2 (R : nat) : list (nat * nat) :=
  flat_map (fun p1 =>
              map (fun p2 => (p1, p2))
                  (filter (fun p2 => negb (p2 =? p1)) (seq 0 R)))
           (seq 0 R).

(** ** The degeneracy scorer *)

Module WorstDegeneracy.

(** One call of [_factor_match_score], named by the component pair. *)
Definition call : Set := (nat * nat)%type.

(** The evaluator object: [modes=None, return_permutation=False] by
    default. *)
Record t : Set := {
  modes : option (list Z);
  return_permutation : bool
}.

(** The value returned: the dictionary with the score under the evaluator's
    name and, when the permutation is asked for, the pair under
    ['permutation:']. *)
Record evaluation : Set := {
  worst_degeneracy : float;
  permutation : option (nat * nat)
}.

(** The local variables the loop assigns. *)
Record locals : Set := {
  min_score : float;
  worst_p1 : option nat;
  worst_p2 : option nat
}.

Section Scorer.

(** [pytensor.metrics._factor_match_score(f1, f2, nonnegative, weight_penalty)[0]]:
    the external metric, of which the first returned value is used. *)
Variable _factor_match_score :
  list (list float) -> list (list float) -> bool -> bool -> float.

(** [[fm[:, p] for mode, fm in enumerate(factor_matrices) if mode in modes]]
    from position [mode] on; [modes] is the local variable, [None] when it
    was never assigned.  The name is looked up once per element. *)
Fixpoint columns_from (modes : option (list Z)) (p mode : nat)
  (fms : list ndarray2) : result (list (list float)) :=
  match fms with
  | [] => Ok []
  | fm :: fms' =>
      (ms <- read_local modes ;;
       if py_in mode ms then
         c <- column fm p ;;
         cs <- columns_from modes p (S mode) fms' ;;
         Ok (c :: cs)
       else columns_from modes p (S mode) fms')%result
  end.

Definition columns (modes : option (list Z)) (p : nat)
  (decomposition : Decomposition) : result (list (list float)) :=
  columns_from modes p 0 (factor_matrices decomposition).

(** The body of the loop over the pairs. *)
Definition body (modes : option (list Z)) (decomposition : Decomposition)
  (pair : nat * nat) (l : locals) : M call locals :=
  let (p1, p2) := pair in
  (factors_p1 <- lift (columns modes p1 decomposition) ;;
   factors_p2 <- lift (columns modes p2 decomposition) ;;
   score <- logged (p1, p2)
              (_factor_match_score factors_p1 factors_p2 false false) ;;
   if (score <? min_score l)%float
   then ret {| min_score := score; worst_p1 := Some p1; worst_p2 := Some p2 |}
   else ret l)%log.

(** [modes] after the [if self.modes is None] statement, which has no
    [else] branch. *)
Definition modes_local (self : t) (decomposition : Decomposition)
  : option (list Z) :=
  match modes self with
  | None => Some (pyrange (length (factor_matrices decomposition)))
  | Some _ => None
  end.

Definition _evaluate (self : t) (decomposition : Decomposition)
  : M call evaluation :=
  let modes := modes_local self decomposition in
  (fm0 <- lift (getitem (factor_matrices decomposition) 0) ;;
   let R := shape1 fm0 in
   l <- for_each (permutations2 R) (body modes decomposition)
          {| min_score := infinity; worst_p1 := None; worst_p2 := None |} ;;
   if return_permutation self then
     p1 <- lift (read_local (worst_p1 l)) ;;
     p2 <- lift (read_local (worst_p2 l)) ;;
     ret {| worst_degeneracy := min_score l; permutation := Some (p1, p2) |}
   else
     ret {| worst_degeneracy := min_score l; permutation := None |})%log.

End Scorer.

End WorstDegeneracy.

(** ** The external metric, as the specification describes it *)

Module metrics.

Definition dot (a b : list float) : float :=
  fold_left (fun acc xy => (acc + fst xy * snd xy)%float) (combine a b) 0%float.

Definition cosine (a b : list float) : float :=
  (dot a b / (sqrt (dot a a) * sqrt (dot b b)))%float.

(** Modelled from the spec: [pytensor.metrics._factor_match_score] belongs to
    another package and is not part of the source.  Section 4.1 describes it
    for the configuration the scorer uses (no nonnegativity correction, no
    weight penalty): the product, across modes, of the cosine similarity
    between the corresponding vectors of the two lists.  The two flags are
    received and, both being off in every call of the scorer, not
    consulted. *)
Definition _factor_match_score (f1 f2 : list (list float))
  (nonnegative weight_penalty : bool) : float :=
  fold_left (fun acc ab => (acc * cosine (fst ab) (snd ab))%float)
            (combine f1 f2) 1%float.

End metrics.

(** ** The p-value evaluator *)

(** [xs[i]] for a Python list and any integer index: a negative index
    counts from the end. *)
Definition py_getitem {A : Type} (xs : list A) (i : Z) : result A :=
  let n := Z.of_nat (length xs) in
  if (0 <=? i)%Z then getitem xs (Z.to_nat i)
  else if (- n <=? i)%Z then getitem xs (Z.to_nat (n + i))
  else Raise IndexError.

(** [min(xs)] on a tuple of floats: the first element, replaced by each
    later one that compares below it. *)
Fixpoint py_min_from (m : float) (xs : list float) : float :=
  match xs with
  | [] => m
  | x :: xs' => py_min_from (if (x <? m)%float then x else m) xs'
  end.

Definition py_min (xs : list float) : result float :=
  match xs with
  | [] => Raise ValueError
  | x :: xs' => Ok (py_min_from x xs')
  end.

Definition py_assert (b : bool) : result unit :=
  if b then Ok tt else Raise AssertionError.

Module PValue.

(** The evaluator object, made by [PValue(summary, mode)]. *)
Record t : Set := {
  mode : Z
}.

(** The data reader's class vector: the entries of an integer array of
    shape [(n,)], [(n, 1)] or [(1, n)]. *)
Record DataReader : Set := {
  classes : list Z
}.

(** [classes.squeeze()] drops the axes of length one: a vector with one
    entry becomes a zero-dimensional array. *)
Inductive squeezed : Set :=
| Array0 (c : Z)
| Array1 (cs : list Z).

Definition squeeze (v : list Z) : squeezed :=
  match v with
  | [c] => Array0 c
  | _ => Array1 v
  end.

(** Iterating over the array, as [set(classes)] and [enumerate(classes)]
    do: numpy raises [TypeError] for a zero-dimensional array. *)
Definition iterate (a : squeezed) : result (list Z) :=
  match a with
  | Array0 _ => Raise TypeError
  | Array1 cs => Ok cs
  end.

(** [[i for i, c in enumerate(cs) if c == class_]], counting from [i]. *)
Fixpoint indices_of (class_ : Z) (i : nat) (cs : list Z) : list nat :=
  match cs with
  | [] => []
  | c :: cs' =>
      if (c =? class_)%Z then i :: indices_of class_ (S i) cs'
      else indices_of class_ (S i) cs'
  end.

(** One call of [ttest_ind], named by the two groups of rows. *)
Definition call : Set := (list (list float) * list (list float))%type.

Section Evaluator.

(** [scipy.stats.ttest_ind(a, b, equal_var).pvalue]: one p-value per
    column. *)
Variable ttest_ind :
  list (list float) -> list (list float) -> bool -> list float.

(** The elements of [set(xs)] in the order the set yields them; that order
    is the interpreter's. *)
Variable set_iter : list Z -> list Z.

Definition _evaluate (self : t) (decomposition : Decomposition)
  (data_reader : DataReader) : M call float :=
  (factors <- lift (py_getitem (factor_matrices decomposition) (mode self)) ;;
   let classes := squeeze (classes data_reader) in
   labels <- lift (iterate classes) ;;
   _ <- lift (py_assert (length (set_iter labels) =? 2)) ;;
   let indices := map (fun class_ => indices_of class_ 0 labels)
                      (set_iter labels) in
   i0 <- lift (getitem indices 0) ;;
   g0 <- lift (take_rows (rows factors) i0) ;;
   i1 <- lift (getitem indices 1) ;;
   g1 <- lift (take_rows (rows factors) i1) ;;
   p_values <- logged (g0, g1) (ttest_ind g0 g1 false) ;;
   lift (py_min p_values))%log.

End Evaluator.

End PValue.

(** ** The visualisers *)

(** The exceptions of the plotting code: those of [exn], and the [KeyError]
    of a dictionary lookup. *)
Inductive pyexn : Set :=
| Builtin (e : exn)
| KeyError.

Inductive answer (A : Type) : Type :=
| Return (a : A)
| Throw (e : pyexn).

Arguments Return {A} a.
Arguments Throw {A} e.

(** The calls of matplotlib, in the order they are made.  A call on an axes
    object is a call on the subplot added last: every visualiser uses an
    axes object right after it has added it. *)
Module plt.

Inductive call : Set :=
| figure (figsize : float * float)
| add_subplot (nrows ncols index : nat)
| plot (ys : list (list float))
| plot_curve (ys : list float)
| plot_red (xs ys : list float)
| scatter (xs : list nat) (ys : list float) (label : Z)
| set_title (s : string)
| set_xlabel (s : option string)
| set_ylabel (s : string)
| set_yticks (ticks : list float)
| set_ylim (lo hi : float)
| legend (labels : option (list string))
| legend_upper_right (labels : list string).

End plt.

(** A method of a visualiser: it may assign attributes of [self] (the
    state), calls matplotlib, and returns or raises; the attributes
    assigned before an exception stay assigned. *)
Definition V (St A : Type) : Type :=
  St -> (St * (list plt.call * answer A))%type.

Definition vret {St A : Type} (a : A) : V St A :=
  fun s => (s, ([], Return a)).

Definition vraise {St A : Type} (e : pyexn) : V St A :=
  fun s => (s, ([], Throw e)).

Definition vbind {St A B : Type} (m : V St A) (k : A -> V St B) : V St B :=
  fun s =>
    match m s with
    | (s', (l, Return a)) =>
        match k a s' with
        | (s'', (l', r)) => (s'', (l ++ l', r))
        end
    | (s', (l, Throw e)) => (s', (l, Throw e))
    end.

Definition vget {St : Type} : V St St := fun s => (s, ([], Return s)).

Definition vput {St : Type} (s : St) : V St unit :=
  fun _ => (s, ([], Return tt)).

Definition emit {St : Type} (c : plt.call) : V St unit :=
  fun s => (s, ([c], Return tt)).

Definition builtin {St A : Type} (r : result A) : V St A :=
  match r with
  | Ok a => vret a
  | Raise e => vraise (Builtin e)
  end.

Declare Scope vis_scope.
Delimit Scope vis_scope with vis.
Notation "x <- m ;; k" := (vbind m (fun x => k))
  (at level 61, m at next level, right associativity) : vis_scope.
Notation "m ;; k" := (vbind m (fun _ => k))
  (at level 61, right associativity) : vis_scope.

Fixpoint vfor {St X : Type} (xs : list X) (body : X -> V St unit)
  : V St unit :=
  match xs with
  | [] => vret tt
  | x :: xs' => (body x ;; vfor xs' body)%vis
  end.

(** [enumerate(xs)], counting from [i]. *)
Fixpoint enumerate_from {X : Type} (i : nat) (xs : list X) : list (nat * X) :=
  match xs with
  | [] => []
  | x :: xs' => (i, x) :: enumerate_from (S i) xs'
  end.

(** [float(n)] for a non-negative integer below [2^63], as the sizes and
    indices of arrays are. *)
Definition float_of_nat (n : nat) : float :=
  PrimFloat.of_uint63 (Uint63.of_Z (Z.of_nat n)).

(** [f'{n}'] for integers. *)
Definition str_of_nat (n : nat) : string :=
  NilEmpty.string_of_uint (Nat.to_uint n).

Definition str_of_Z (z : Z) : string :=
  NilZero.string_of_int (Z.to_int z).

(** [string.ascii_lowercase]. *)
Definition ascii_lowercase : list ascii :=
  list_ascii_of_string "abcdefghijklmnopqrstuvwxyz".

(** [np.unique(xs)]: the distinct elements in ascending order. *)
Fixpoint insert_unique (x : Z) (l : list Z) : list Z :=
  match l with
  | [] => [x]
  | y :: l' =>
      if (x <? y)%Z then x :: l
      else if (x =? y)%Z then l
      else y :: insert_unique x l'
  end.

Definition np_unique (xs : list Z) : list Z := fold_right insert_unique [] xs.

Definition np_unique_array (a : PValue.squeezed) : list Z :=
  match a with
  | PValue.Array0 c => [c]
  | PValue.Array1 cs => np_unique cs
  end.

(** A dictionary with integer keys, by insertion; [d[k]]. *)
Fixpoint dict_set {B : Type} (k : Z) (v : B) (d : list (Z * B))
  : list (Z * B) :=
  match d with
  | [] => [(k, v)]
  | (k', v') :: d' =>
      if (k =? k')%Z then (k, v) :: d' else (k', v') :: dict_set k v d'
  end.

Fixpoint dict_get {St B : Type} (d : list (Z * B)) (k : Z) : V St B :=
  match d with
  | [] => vraise KeyError
  | (k', v) :: d' => if (k =? k')%Z then vret v else dict_get d' k
  end.

(** A dictionary with string keys; [d[k]]. *)
Fixpoint str_dict_get {St B : Type} (d : list (string * B)) (k : string)
  : V St B :=
  match d with
  | [] => vraise KeyError
  | (k', v) :: d' => if String.eqb k k' then vret v else str_dict_get d' k
  end.

(** [[f(x) for x in xs]] for an [f] that may raise. *)
Fixpoint vmap {St X Y : Type} (f : X -> V St Y) (xs : list X)
  : V St (list Y) :=
  match xs with
  | [] => vret []
  | x :: xs' => (y <- f x ;; ys <- vmap f xs' ;; vret (y :: ys))%vis
  end.

(** [a[mask]] for a boolean mask: numpy raises [IndexError] when the mask
    and the array differ in length. *)
Definition mask_select {X : Type} (xs : list X) (mask : list bool)
  : result (list X) :=
  if length mask =? length xs
  then Ok (map fst (filter snd (combine xs mask)))
  else Raise IndexError.

(** The data reader as the visualisers use it: the names of the modes, if
    any, and for every mode the class vectors by name. *)
Record PlotDataReader : Set := {
  mode_names : option (list string);
  plot_classes : list (list (string * list Z))
}.

(** [{c: i for i, c in enumerate(l)}], counting from [i0] and starting from
    the dictionary [d0]. *)
Definition class_ids (l : list Z) (i0 : nat) (d0 : list (Z * Z))
  : list (Z * Z) :=
  fold_left (fun d ic => dict_set (snd ic) (Z.of_nat (fst ic)) d)
            (enumerate_from i0 l) d0.

(** [ids[1:] - ids[:-1]]. *)
Definition np_diff (ids : list Z) : list Z :=
  map (fun xy => (fst xy - snd xy)%Z) (combine (tl ids) (removelast ids)).

Module ClassLinePlotter.

Record t : Set := {
  figsize : float * float;
  mode : Z;
  class_name : string
}.

Section Visualise.

(** [ax.get_ylim()] after [ax.plot(ys)]: the limits matplotlib chose. *)
Variable get_ylim : list (list float) -> float * float.

(** The body of the loop over [enumerate(diff)]. *)
Definition separator (ylim : float * float) (idi : nat * Z) : V t unit :=
  if (snd idi =? 0)%Z then vret tt
  else emit (plt.plot_red
               [(float_of_nat (fst idi) + 0.5)%float;
                (float_of_nat (fst idi) + 0.5)%float]
               [fst ylim; snd ylim]).

(** The checkpoint loaded is given as the sequence of its factor matrices,
    which is how the method indexes it. *)
Definition _visualise (factor_matrices : list ndarray2)
  (data_reader : PlotDataReader) : V t unit :=
  (self <- vget ;;
   emit (plt.figure (figsize self)) ;;
   emit (plt.add_subplot 1 1 1) ;;
   factor <- builtin (py_getitem factor_matrices (mode self)) ;;
   emit (plt.plot (rows factor)) ;;
   let ylim := get_ylim (rows factor) in
   by_name <- builtin (py_getitem (plot_classes data_reader) (mode self)) ;;
   entry <- str_dict_get by_name (class_name self) ;;
   let classes := PValue.squeeze entry in
   let class_id := class_ids (np_unique_array classes) 0 [] in
   cs <- builtin (PValue.iterate classes) ;;
   ids <- vmap (dict_get class_id) cs ;;
   vfor (enumerate_from 0 (np_diff ids)) (separator ylim) ;;
   emit (plt.set_ylim (fst ylim) (snd ylim)))%vis.

End Visualise.

End ClassLinePlotter.

Module SingleComponentLinePlotter.

Record t : Set := {
  figsize : float * float;
  mode : Z;
  normalise : bool;
  label : option string
}.

Section Visualise.

(** [factor / np.linalg.norm(factor, axis=0, keepdims=True)]. *)
Variable normalised : ndarray2 -> ndarray2.

Definition subplot (self : t) (data_reader : PlotDataReader)
  (factor : ndarray2) (rank r : nat) : V t unit :=
  (emit (plt.add_subplot 1 rank (r + 1)) ;;
   ys <- builtin (column factor r) ;;
   emit (plt.plot_curve ys) ;;
   match mode_names data_reader with
   | Some names =>
       if (Z.of_nat (length names) >? mode self)%Z then
         name <- builtin (py_getitem names (mode self)) ;;
         emit (plt.set_xlabel (Some name))
       else vret tt
   | None => vret tt
   end ;;
   match label self with
   | Some l => emit (plt.set_xlabel (Some l))
   | None => vret tt
   end ;;
   (if r =? 0 then emit (plt.set_ylabel "Factor") else vret tt) ;;
   emit (plt.set_title ("Component " ++ str_of_nat r)))%vis.

Definition _visualise (factor_matrices : list ndarray2)
  (data_reader : PlotDataReader) : V t unit :=
  (self <- vget ;;
   emit (plt.figure (figsize self)) ;;
   factor <- builtin (py_getitem factor_matrices (mode self)) ;;
   let rank := shape1 factor in
   let factor := if normalise self then normalised factor else factor in
   vput {| figsize := ((fst (figsize self) * float_of_nat rank)%float,
                       snd (figsize self));
           mode := mode self;
           normalise := normalise self;
           label := label self |} ;;
   vfor (seq 0 rank) (subplot self data_reader factor rank))%vis.

End Visualise.

End SingleComponentLinePlotter.

Module FactorLinePlotter.

Record t : Set := {
  figsize : float * float;
  modes : list Z;
  labels : option (list string);
  show_legend : bool;
  normalise : bool
}.

Section Visualise.

Variable normalised : ndarray2 -> ndarray2.

Definition _visualise_mode (self : t) (data_reader : PlotDataReader)
  (factor_matrices : list ndarray2) (mode : Z) (label : option string)
  : V t unit :=
  (factor <- builtin (py_getitem factor_matrices mode) ;;
   let factor := if normalise self then normalised factor else factor in
   emit (plt.plot (rows factor)) ;;
   emit (plt.set_title ("Mode " ++ str_of_Z mode)) ;;
   match mode_names data_reader with
   | Some names =>
       if (Z.of_nat (length names) >? mode)%Z then
         name <- builtin (py_getitem names mode) ;;
         emit (plt.set_title name)
       else vret tt
   | None => vret tt
   end ;;
   emit (plt.set_xlabel label) ;;
   if show_legend self then
     letter <- builtin (py_getitem ascii_lowercase mode) ;;
     emit (plt.legend_upper_right
             (map (fun i => String letter (str_of_nat i))
                  (seq 0 (shape1 factor))))
   else vret tt)%vis.

(** The body of the loop over [enumerate(self.modes)]. *)
Definition subplot (self : t) (data_reader : PlotDataReader)
  (factor_matrices : list ndarray2) (num_cols : nat) (imode : nat * Z)
  : V t unit :=
  (emit (plt.add_subplot 1 num_cols (fst imode + 1)) ;;
   label <- match labels self with
            | Some ls => l <- builtin (getitem ls (fst imode)) ;;
                         vret (Some l)
            | None => vret None
            end ;;
   _visualise_mode self data_reader factor_matrices (snd imode) label)%vis.

Definition _visualise (factor_matrices : list ndarray2)
  (data_reader : PlotDataReader) : V t unit :=
  (self <- vget ;;
   emit (plt.figure (figsize self)) ;;
   let num_cols := length (modes self) in
   vfor (enumerate_from 0 (modes self))
        (subplot self data_reader factor_matrices num_cols))%vis.

End Visualise.

End FactorLinePlotter.

Module FactorScatterPlotter.

Record t : Set := {
  figsize : float * float;
  mode : Z;
  normalise : bool;
  label : option string;
  legend : option (list string);
  common_axis : bool;
  class_name : string
}.

Section Visualise.

Variable normalised : ndarray2 -> ndarray2.

(** [factor.min()] and [factor.max()]. *)
Variable np_min np_max : ndarray2 -> result float.

(** The body of the loop over the components.  [cs] is the class vector,
    one-dimensional where the loop is reached. *)
Definition subplot (self : t) (data_reader : PlotDataReader)
  (factor : ndarray2) (cs different_classes : list Z) (rank r : nat)
  : V t unit :=
  (emit (plt.add_subplot 1 rank (r + 1)) ;;
   vfor different_classes
        (fun c =>
           let mask := map (fun x => (x =? c)%Z) cs in
           xs <- builtin (mask_select (seq 0 (shape0 factor)) mask) ;;
           rs <- builtin (mask_select (rows factor) mask) ;;
           ys <- builtin (column {| rows := rs; shape1 := shape1 factor |} r) ;;
           emit (plt.scatter xs ys c)) ;;
   match mode_names data_reader with
   | Some names =>
       if (Z.of_nat (length names) >? mode self)%Z then
         name <- builtin (py_getitem names (mode self)) ;;
         emit (plt.set_xlabel (Some name))
       else vret tt
   | None => vret tt
   end ;;
   match label self with
   | Some l => emit (plt.set_xlabel (Some l))
   | None => vret tt
   end ;;
   (if r =? 0 then emit (plt.set_ylabel "Factor")
    else if common_axis self then emit (plt.set_yticks [])
    else vret tt) ;;
   emit (plt.set_title ("Component " ++ str_of_nat r)) ;;
   (if common_axis self then
      fmin <- builtin (np_min factor) ;;
      fmax <- builtin (np_max factor) ;;
      let df := (fmax - fmin)%float in
      emit (plt.set_ylim (fmin - 0x1.47ae147ae147bp-7 * df)%float
                         (fmax + 0x1.47ae147ae147bp-7 * df)%float)
    else vret tt) ;;
   emit (plt.legend (legend self)))%vis.

Definition _visualise (factor_matrices : list ndarray2)
  (data_reader : PlotDataReader) : V t unit :=
  (self <- vget ;;
   emit (plt.figure (figsize self)) ;;
   factor <- builtin (py_getitem factor_matrices (mode self)) ;;
   let rank := shape1 factor in
   let factor := if normalise self then normalised factor else factor in
   vput {| figsize := ((fst (figsize self) * float_of_nat rank)%float,
                       snd (figsize self));
           mode := mode self;
           normalise := normalise self;
           label := label self;
           legend := legend self;
           common_axis := common_axis self;
           class_name := class_name self |} ;;
   by_name <- builtin (py_getitem (plot_classes data_reader) (mode self)) ;;
   entry <- str_dict_get by_name (class_name self) ;;
   let classes := PValue.squeeze entry in
   let different_classes := np_unique_array classes in
   class1 <- builtin (getitem different_classes 0) ;;
   class2 <- builtin (getitem different_classes 1) ;;
   let cs := match classes with
             | PValue.Array1 cs => cs
             | PValue.Array0 c => [c]
             end in
   vfor (seq 0 rank)
        (subplot self data_reader factor cs different_classes rank))%vis.

End Visualise.

End FactorScatterPlotter.

(** ** Vocabulary of the specification *)

(** [WorstDegeneracy(summary, return_permutation=flag)] and
    [WorstDegeneracy(summary, modes=ms, return_permutation=flag)]. *)
Definition default_scorer (flag : bool) : WorstDegeneracy.t :=
  {| WorstDegeneracy.modes := None;
     WorstDegeneracy.return_permutation := flag |}.

Definition subset_scorer (ms : list Z) (flag : bool) : WorstDegeneracy.t :=
  {| WorstDegeneracy.modes := Some ms;
     WorstDegeneracy.return_permutation := flag |}.

(** A decomposition of rank [R]: at least one factor matrix, and [R] columns
    in every factor matrix. *)
Definition has_rank (d : Decomposition) (R : nat) : Prop :=
  factor_matrices d <> [] /\
  Forall (fun fm => shape1 fm = R) (factor_matrices d).

(** The rank the scorer works with: the column count of the first factor
    matrix, the others having at least that many columns. *)
Definition covers_rank (d : Decomposition) (R : nat) : Prop :=
  (exists fm fms, factor_matrices d = fm :: fms /\ shape1 fm = R) /\
  Forall (fun fm => R <= shape1 fm) (factor_matrices d).

(** Component [p] of the decomposition: column [p] of every mode, in the
    order of the modes. *)
Definition component (d : Decomposition) (p : nat) : list (list float) :=
  map (column_values p) (factor_matrices d).

Section PairScore.

Variable fms : list (list float) -> list (list float) -> bool -> bool -> float.

(** The factor-match score of the ordered pair [(p1, p2)] over all modes,
    without nonnegativity correction and without weight penalty. *)
Definition pair_score (d : Decomposition) (pair : nat * nat) : float :=
  fms (component d (fst pair)) (component d (snd pair)) false false.

(** Every pair of distinct components below [R] has a score that is a
    number below plus infinity. *)
Definition scores_finite (d : Decomposition) (R : nat) : Prop :=
  forall pair, In pair (permutations2 R) ->
               (pair_score d pair <? infinity)%float = true.

End PairScore.

Section ClosedForm.

Variable fms : list (list float) -> list (list float) -> bool -> bool -> float.

(** The loop in closed form, for the runs in which every selection
    succeeds. *)

(** What one iteration does to the local variables when both selections
    succeed. *)
Definition update (d : Decomposition) (l : WorstDegeneracy.locals)
  (pair : nat * nat) : WorstDegeneracy.locals :=
  if (pair_score fms d pair <? WorstDegeneracy.min_score l)%float
  then {| WorstDegeneracy.min_score := pair_score fms d pair;
          WorstDegeneracy.worst_p1 := Some (fst pair);
          WorstDegeneracy.worst_p2 := Some (snd pair) |}
  else l.

Definition initial : WorstDegeneracy.locals :=
  {| WorstDegeneracy.min_score := infinity;
     WorstDegeneracy.worst_p1 := None;
     WorstDegeneracy.worst_p2 := None |}.

Definition all_modes (d : Decomposition) : option (list Z) :=
  Some (pyrange (length (factor_matrices d))).

(** The value returned from the local variables the loop leaves. *)
Definition returned (flag : bool) (l : WorstDegeneracy.locals)
  : result WorstDegeneracy.evaluation :=
  if flag then
    match WorstDegeneracy.worst_p1 l, WorstDegeneracy.worst_p2 l with
    | Some p1, Some p2 =>
        Ok {| WorstDegeneracy.worst_degeneracy := WorstDegeneracy.min_score l;
              WorstDegeneracy.permutation := Some (p1, p2) |}
    | _, _ => Raise NameError
    end
  else Ok {| WorstDegeneracy.worst_degeneracy := WorstDegeneracy.min_score l;
             WorstDegeneracy.permutation := None |}.

End ClosedForm.

(** The order of the floats on their specification, [spec_float]. *)
Definition SFle (x y : spec_float) : Prop :=
  match SFcompare x y with
  | Some Lt | Some Eq => True
  | _ => False
  end.

Definition SFlt (x y : spec_float) : Prop := SFcompare x y = Some Lt.

(** [m] is a least element of [xs] for the order of the floats. *)
Definition least (m : float) (xs : list float) : Prop :=
  In m xs /\ forall x, In x xs -> (m <=? x)%float = true.

Definition not_nan (x : float) : Prop := (x =? x)%float = true.

(** The rows of the samples of one class, for the class vector [labels]
    laid along the rows [rws]. *)
Definition group (class_ : Z) (labels : list Z) (rws : list (list float))
  : list (list float) :=
  map snd (filter (fun lr => (fst lr =? class_)%Z) (combine labels rws)).

(** The number of distinct class labels. *)
Definition distinct_count (labels : list Z) : nat :=
  length (nodup Z.eq_dec labels).

(** The order of the iteration over the pairs: ascending [p1], then
    ascending [p2]. *)
Definition lex_lt (a b : nat * nat) : Prop :=
  fst a < fst b \/ (fst a = fst b /\ snd a < snd b).

(** The elements that are numbers, NaN left out. *)
Definition numbers (xs : list float) : list float :=
  filter (fun x => (x =? x)%float) xs.

(** The positions [i], counted from [i0], at which an entry of the class
    vector differs from the next one. *)
Fixpoint changes_from (i0 : nat) (cs : list Z) : list nat :=
  match cs with
  | x :: ((y :: _) as cs') =>
      if (x =? y)%Z then changes_from (S i0) cs'
      else i0 :: changes_from (S i0) cs'
  | _ => []
  end.

(** The position of the first occurrence of [c] in [l]. *)
Fixpoint index_of (c : Z) (l : list Z) : nat :=
  match l with
  | [] => 0
  | x :: l' => if (c =? x)%Z then 0 else S (index_of c l')
  end.

(** What a dictionary holds for a key. *)
Fixpoint dict_find {B : Type} (d : list (Z * B)) (k : Z) : option B :=
  match d with
  | [] => None
  | (k', v) :: d' => if (k =? k')%Z then Some v else dict_find d' k
  end.

Fixpoint str_dict_find {B : Type} (d : list (string * B)) (k : string)
  : option B :=
  match d with
  | [] => None
  | (k', v) :: d' => if String.eqb k k' then Some v else str_dict_find d' k
  end.

(** The red line drawn after position [i]. *)
Definition red_line (ylim : float * float) (i : nat) : plt.call :=
  plt.plot_red [(float_of_nat i + 0.5)%float; (float_of_nat i + 0.5)%float]
               [fst ylim; snd ylim].

(** What the factor line plotter needs of the mode [m] listed at position
    [i], for a checkpoint of [n] factor matrices: the mode names a factor
    matrix; a label is there for the position when labels are given; the
    mode names a mode name when the names are more than [m]; and the mode
    names a lowercase letter when the legend is shown. *)
Definition line_plot_ok (self : FactorLinePlotter.t)
  (data_reader : PlotDataReader) (n i : nat) (m : Z) : Prop :=
  (- Z.of_nat n <= m < Z.of_nat n)%Z /\
  match FactorLinePlotter.labels self with
  | Some ls => i < length ls
  | None => True
  end /\
  match mode_names data_reader with
  | Some names =>
      (m < Z.of_nat (length names) -> - Z.of_nat (length names) <= m)%Z
  | None => True
  end /\
  (FactorLinePlotter.show_legend self = true -> (-26 <= m < 26)%Z).

(** The state, the log and the answer of a run. *)
Definition state_after {St A : Type} (r : St * (list plt.call * answer A))
  : St := fst r.
Definition plotted {St A : Type} (r : St * (list plt.call * answer A))
  : list plt.call := fst (snd r).
Definition answered {St A : Type} (r : St * (list plt.call * answer A))
  : answer A := snd (snd r).

(** A method that leaves the attributes of [self] alone. *)
Definition keeps_state {St A : Type} (m : V St A) : Prop :=
  forall s, state_after (m s) = s.

(** A computation that returns exactly when [P] holds and raises
    [IndexError] otherwise. *)
Definition returns_iff {St A : Type} (P : Prop) (m : V St A) : Prop :=
  forall s,
    (P /\ exists a, answered (m s) = Return a) \/
    (~ P /\ answered (m s) = Throw (Builtin IndexError)).




(** ** Inputs of the examples *)

Definition array (cols : nat) (r : list (list float)) : ndarray2 :=
  {| rows := r; shape1 := cols |}.

(** Rank 2, two modes: the columns of mode 0 are [[1,0]] and [[0,1]], the
    columns of mode 1 are both [[1,1]]. *)
Definition known_input : Decomposition :=
  {| factor_matrices := [ array 2 [[1; 0]; [0; 1]]%float;
                          array 2 [[1; 1]; [1; 1]]%float ] |}.

(** Rank 3 in mode 0 and rank 4 in mode 1. *)
Definition ranks_3_and_4 : Decomposition :=
  {| factor_matrices :=
       [ array 3 [[1; 0; 0]; [0; 1; 0]; [0; 0; 1]]%float;
         array 4 [[1; 2; 3; 4]; [5; 6; 7; 8]]%float ] |}.

(** Rank 4 in mode 0 and rank 3 in mode 1. *)
Definition ranks_4_and_3 : Decomposition :=
  {| factor_matrices :=
       [ array 4 [[1; 2; 3; 4]; [5; 6; 7; 8]]%float;
         array 3 [[1; 0; 0]; [0; 1; 0]; [0; 0; 1]]%float ] |}.

(** Rank 1, two modes. *)
Definition rank_1 : Decomposition :=
  {| factor_matrices := [ array 1 [[1]; [2]]%float;
                          array 1 [[3]; [4]; [5]]%float ] |}.

(** Rank 3, two modes, with three different pair scores. *)
Definition rank_3 : Decomposition :=
  {| factor_matrices :=
       [ array 3 [[1; 1; 1]; [0; 1; 1]; [0; 0; 1]]%float;
         array 3 [[1; 2; 1]; [1; 1; 3]]%float ] |}.

(** A stand-in for scipy's test in the examples: the p-values of a recorded
    run, one per column. *)
Definition recorded_ttest (a b : list (list float)) (equal_var : bool)
  : list float :=
  [0.25; 0.03125]%float.

(** The distinct labels in the order of their last occurrence, one of the
    orders a set may yield. *)
Definition distinct (xs : list Z) : list Z := nodup Z.eq_dec xs.

(** Four samples along mode 0, rank 2. *)
Definition four_samples : Decomposition :=
  {| factor_matrices :=
       [ array 2 [[1; 2]; [3; 4]; [5; 6]; [7; 8]]%float;
         array 2 [[1; 1]; [1; 1]]%float ] |}.

(** Rank 2, two modes, every entry of mode 0 zero: the cosine of two zero
    columns is NaN. *)
Definition zero_columns : Decomposition :=
  {| factor_matrices := [ array 2 [[0; 0]; [0; 0]]%float;
                          array 2 [[1; 2]; [3; 4]]%float ] |}.

(** Stand-ins for the test with a NaN p-value, for the first component
    and for a later one. *)
Definition nan_first_ttest (a b : list (list float)) (equal_var : bool)
  : list float :=
  [nan; 0.5]%float.

Definition nan_later_ttest (a b : list (list float)) (equal_var : bool)
  : list float :=
  [0.5; nan; 0.25]%float.

(** Six samples along both modes, rank 2; a data reader with the names of
    the modes and a class vector for mode 0; fixed y-limits. *)
Definition six_samples : list ndarray2 :=
  [ array 2 [[1; 2]; [3; 4]; [5; 6]; [7; 8]; [9; 10]; [11; 12]]%float;
    array 2 [[1; 2]; [3; 4]; [5; 6]; [7; 8]; [9; 10]; [11; 12]]%float ].

Definition sample_reader : PlotDataReader :=
  {| mode_names := Some ["time"%string; "voxel"%string];
     plot_classes := [ [("diagnosis"%string, [2; 2; 5; 5; 2; 9]%Z);
                        ("site"%string, [3; 3; 3; 3; 3; 3]%Z)];
                       [] ] |}.

Definition fixed_ylim (ys : list (list float)) : float * float :=
  (0%float, 12%float).

Definition no_normalisation (fm : ndarray2) : ndarray2 := fm.

(* ===================================================================== *)
(** * Part II: properties *)
(* ===================================================================== *)

(** ** The order of the floats *)

(** The comparisons of the primitive floats are specified through
    [SFcompare] on [spec_float]; the facts the loops need are those of a
    total preorder on the values that are not NaN. *)

Lemma SFcompare_refl (x : spec_float) :
  SFcompare x x = None \/ SFcompare x x = Some Eq.
Proof.
  destruct x as [s| s | |s m e]; simpl; auto.
  - destruct s; auto.
  - right. destruct s; rewrite Z.compare_refl, Pos.compare_cont_refl; reflexivity.
Qed.

Lemma SFcompare_antisym (x y : spec_float) :
  SFcompare y x = option_map CompOpp (SFcompare x y).
Proof.
  destruct x as [s1|s1| |s1 m1 e1], y as [s2|s2| |s2 m2 e2]; simpl; auto;
    try (destruct s1; reflexivity); try (destruct s2; reflexivity);
    try (destruct s1, s2; reflexivity).
  rewrite (Z.compare_antisym e1 e2).
  change (Pos.compare_cont Eq m2 m1) with (Pos.compare m2 m1).
  change (Pos.compare_cont Eq m1 m2) with (Pos.compare m1 m2).
  rewrite (Pos.compare_antisym m1 m2).
  destruct s1, s2; simpl; try reflexivity;
    destruct (e1 ?= e2)%Z; simpl; try reflexivity;
    destruct (m1 ?= m2)%positive; reflexivity.
Qed.

Lemma SFlt_le_trans_lt (x y z : spec_float) :
  SFlt x y -> SFle y z -> SFlt x z.
Proof.
  unfold SFlt, SFle.
  destruct x as [s1|s1| |s1 m1 e1], y as [s2|s2| |s2 m2 e2],
           z as [s3|s3| |s3 m3 e3]; simpl;
    try discriminate; try tauto;
    try (destruct s1; simpl; try discriminate; try tauto);
    try (destruct s2; simpl; try discriminate; try tauto);
    try (destruct s3; simpl; try discriminate; try tauto).
  all: change (Pos.compare_cont Eq m1 m2) with (Pos.compare m1 m2);
       change (Pos.compare_cont Eq m2 m3) with (Pos.compare m2 m3);
       change (Pos.compare_cont Eq m1 m3) with (Pos.compare m1 m3).
  all: destruct (Z.compare_spec e1 e2); simpl; try discriminate;
       destruct (Z.compare_spec e2 e3); simpl; try tauto;
       destruct (Z.compare_spec e1 e3); simpl; try tauto; try lia; subst.
  all: destruct (Pos.compare_spec m1 m2); simpl; try discriminate;
       destruct (Pos.compare_spec m2 m3); simpl; try tauto;
       destruct (Pos.compare_spec m1 m3); simpl; try tauto; try lia.
Qed.

Lemma float_leb_refl (x : float) : not_nan x -> (x <=? x)%float = true.
Proof.
  unfold not_nan. rewrite eqb_spec, leb_spec. unfold SFeqb, SFleb.
  destruct (SFcompare_refl (Prim2SF x)) as [H | H]; rewrite H; auto.
Qed.

Lemma float_ltb_leb_trans_lt (x y z : float) :
  (x <? y)%float = true -> (y <=? z)%float = true -> (x <? z)%float = true.
Proof.
  rewrite !ltb_spec, leb_spec. unfold SFltb, SFleb. intros Hxy Hyz.
  assert (Hlt : SFlt (Prim2SF x) (Prim2SF z)).
  { apply SFlt_le_trans_lt with (y := Prim2SF y); unfold SFlt, SFle.
    - destruct (SFcompare (Prim2SF x) (Prim2SF y)) as [[ | | ]|];
        try discriminate; reflexivity.
    - destruct (SFcompare (Prim2SF y) (Prim2SF z)) as [[ | | ]|];
        try discriminate; exact I. }
  unfold SFlt in Hlt. now rewrite Hlt.
Qed.

Lemma float_ltb_leb (x y : float) :
  (x <? y)%float = true -> (x <=? y)%float = true.
Proof.
  rewrite ltb_spec, leb_spec. unfold SFltb, SFleb.
  destruct (SFcompare (Prim2SF x) (Prim2SF y)) as [[ | | ]|];
    try discriminate; reflexivity.
Qed.

Lemma float_ltb_leb_trans (x y z : float) :
  (x <? y)%float = true -> (y <=? z)%float = true -> (x <=? z)%float = true.
Proof.
  intros Hxy Hyz. apply float_ltb_leb.
  now apply float_ltb_leb_trans_lt with (y := y).
Qed.

Lemma float_not_ltb_leb (x y : float) :
  not_nan x -> not_nan y -> (x <? y)%float = false -> (y <=? x)%float = true.
Proof.
  unfold not_nan. rewrite !eqb_spec, ltb_spec, leb_spec.
  unfold SFeqb, SFltb, SFleb. intros Hx Hy.
  rewrite (SFcompare_antisym (Prim2SF x) (Prim2SF y)).
  destruct (Prim2SF x) as [s1|s1| |s1 m1 e1], (Prim2SF y) as [s2|s2| |s2 m2 e2];
    simpl in *; try discriminate;
    try (destruct s1; simpl; congruence); try (destruct s2; simpl; congruence);
    try (destruct s1, s2; simpl; congruence).
  destruct s1, s2; simpl; try congruence;
    destruct (e1 ?= e2)%Z; simpl; try congruence;
    destruct (Pos.compare_cont Eq m1 m2); simpl; congruence.
Qed.

Lemma float_ltb_not_nan (x y : float) : (x <? y)%float = true -> not_nan x.
Proof.
  unfold not_nan. rewrite eqb_spec, ltb_spec. unfold SFeqb, SFltb.
  destruct (SFcompare_refl (Prim2SF x)) as [H | H]; rewrite H; auto.
  destruct (Prim2SF x); simpl in *; discriminate.
Qed.

Lemma float_ltb_irrefl (x : float) : (x <? x)%float = false.
Proof.
  rewrite ltb_spec. unfold SFltb.
  destruct (SFcompare_refl (Prim2SF x)) as [H | H]; rewrite H; reflexivity.
Qed.

Lemma float_infinity_not_nan : not_nan infinity.
Proof. reflexivity. Qed.

(** ** The pairs of distinct components *)

Lemma In_permutations2 (R p1 p2 : nat) :
  In (p1, p2) (permutations2 R) <-> p1 < R /\ p2 < R /\ p1 <> p2.
Proof.
  unfold permutations2. rewrite in_flat_map. split.
  - intros (x & Hx & Hin). apply in_map_iff in Hin.
    destruct Hin as (y & Heq & Hy). inversion Heq; subst.
    apply filter_In in Hy. destruct Hy as [Hy Hne].
    apply in_seq in Hx. apply in_seq in Hy.
    apply negb_true_iff, Nat.eqb_neq in Hne. lia.
  - intros (H1 & H2 & Hne). exists p1. split.
    + apply in_seq. lia.
    + apply in_map. apply filter_In. split.
      * apply in_seq. lia.
      * apply negb_true_iff, Nat.eqb_neq. congruence.
Qed.

Lemma length_filter_other (p s n : nat) :
  length (filter (fun q => negb (q =? p)) (seq s n)) =
  if (s <=? p) && (p <? s + n) then n - 1 else n.
Proof.
  revert s. induction n as [| n IH]; intros s; simpl.
  - destruct (s <=? p), (p <? s + 0); reflexivity.
  - destruct (Nat.eqb_spec s p) as [-> | Hne]; simpl; rewrite IH.
    + assert (Hle : (p <=? p) = true) by (apply Nat.leb_le; lia).
      assert (Hlt : (p <? p + S n) = true) by (apply Nat.ltb_lt; lia).
      assert (Hfalse : (S p <=? p) = false) by (apply Nat.leb_gt; lia).
      rewrite Hle, Hlt, Hfalse. simpl. lia.
    + destruct (Nat.leb_spec (S s) p), (Nat.leb_spec s p),
        (Nat.ltb_spec p (S s + n)), (Nat.ltb_spec p (s + S n));
        simpl; lia.
Qed.

Lemma length_flat_map_const {A B : Type} (f : A -> list B) (k : nat)
  (l : list A) :
  (forall a, In a l -> length (f a) = k) ->
  length (flat_map f l) = length l * k.
Proof.
  induction l as [| a l IH]; intros H; simpl; [reflexivity |].
  rewrite length_app, H, IH; auto with datatypes.
Qed.

Lemma length_permutations2 (R : nat) :
  length (permutations2 R) = R * (R - 1).
Proof.
  unfold permutations2.
  rewrite length_flat_map_const with (k := R - 1).
  - now rewrite length_seq.
  - intros p Hp. apply in_seq in Hp. rewrite length_map, length_filter_other.
    assert (H1 : (0 <=? p) = true) by (apply Nat.leb_le; lia).
    assert (H2 : (p <? 0 + R) = true) by (apply Nat.ltb_lt; lia).
    now rewrite H1, H2.
Qed.

Lemma permutations2_nonempty (R : nat) : 2 <= R -> permutations2 R <> [].
Proof.
  intros HR Hnil.
  assert (Hin : In (0, 1) (permutations2 R)) by (apply In_permutations2; lia).
  rewrite Hnil in Hin. exact Hin.
Qed.

(** ** The log and the loop *)

Lemma for_each_pure {E X S : Type} (body : X -> S -> M E S)
  (f : S -> X -> S) (ev : X -> E) (xs : list X) :
  (forall x, In x xs -> forall s, body x s = ([ev x], Ok (f s x))) ->
  forall s, for_each xs body s = (map ev xs, Ok (fold_left f xs s)).
Proof.
  induction xs as [| x xs IH]; intros H s; simpl; [reflexivity |].
  rewrite H by (left; reflexivity). simpl.
  rewrite IH by (intros; apply H; right; assumption). reflexivity.
Qed.

(** The log of a loop holds events of the elements iterated, in order, and
    nothing else. *)
Lemma for_each_calls_incl {E X S : Type} (body : X -> S -> M E S)
  (P : E -> Prop) (xs : list X) :
  (forall x s, In x xs -> Forall P (calls (body x s))) ->
  forall s, Forall P (calls (for_each xs body s)).
Proof.
  induction xs as [| x xs IH]; intros H s; simpl; [constructor |].
  unfold bind. specialize (H x s (or_introl eq_refl)) as Hx.
  destruct (body x s) as [l [s' | e]]; simpl in *; [| exact Hx].
  specialize (IH (fun y t Hy => H y t (or_intror Hy)) s').
  destruct (for_each xs body s') as [l' r]. simpl in *.
  apply Forall_app. split; assumption.
Qed.

(** The exceptions of a loop are those of its body. *)
Lemma for_each_raises {E X S : Type} (body : X -> S -> M E S)
  (Q : exn -> Prop) (xs : list X) :
  (forall x s e, In x xs -> outcome (body x s) = Raise e -> Q e) ->
  forall s e, outcome (for_each xs body s) = Raise e -> Q e.
Proof.
  induction xs as [| x xs IH]; intros H s e; simpl; [discriminate |].
  unfold bind. specialize (H x s) as Hx.
  destruct (body x s) as [l [s' | e']]; simpl in *.
  - specialize (IH (fun y t e0 Hy => H y t e0 (or_intror Hy)) s' e).
    destruct (for_each xs body s') as [l' r]. simpl in *. exact IH.
  - intros Heq. apply (Hx e); auto.
Qed.

Lemma calls_bind {E A B : Type} (m : M E A) (k : A -> M E B) :
  calls (bind m k) =
  calls m ++ match outcome m with
             | Ok a => calls (k a)
             | Raise _ => []
             end.
Proof.
  destruct m as [l [a | e]]; simpl.
  - destruct (k a); reflexivity.
  - now rewrite app_nil_r.
Qed.

Lemma outcome_bind {E A B : Type} (m : M E A) (k : A -> M E B) :
  outcome (bind m k) =
  match outcome m with
  | Ok a => outcome (k a)
  | Raise e => Raise e
  end.
Proof.
  destruct m as [l [a | e]]; simpl; [destruct (k a) |]; reflexivity.
Qed.

(** A loop whose body raises nothing but [e], and raises it at some
    element whatever the state, raises [e]. *)
Lemma for_each_raises_at {E X S : Type} (body : X -> S -> M E S) (e : exn)
  (xs : list X) :
  (forall x s e', In x xs -> outcome (body x s) = Raise e' -> e' = e) ->
  (exists x, In x xs /\ forall s, outcome (body x s) = Raise e) ->
  forall s, outcome (for_each xs body s) = Raise e.
Proof.
  induction xs as [| x xs IH]; intros Honly (y & Hy & Hraise) s;
    [destruct Hy |].
  simpl. rewrite outcome_bind.
  destruct (outcome (body x s)) as [s' | e'] eqn:Hx.
  - apply IH.
    + intros z t e0 Hz. apply Honly. right; assumption.
    + exists y. split; [| assumption].
      destruct Hy as [-> | Hy]; [| assumption].
      rewrite Hraise in Hx. discriminate.
  - f_equal. eapply Honly; [left; reflexivity | eassumption].
Qed.

(** ** The column selection *)

Lemma py_in_pyrange (mode n : nat) : mode < n -> py_in mode (pyrange n) = true.
Proof.
  intros H. unfold py_in, pyrange. apply existsb_exists.
  exists (Z.of_nat mode). split; [| apply Z.eqb_refl].
  apply in_map, in_seq. lia.
Qed.

Lemma py_in_spec (mode : nat) (ms : list Z) :
  py_in mode ms = true <-> In (Z.of_nat mode) ms.
Proof.
  unfold py_in. rewrite existsb_exists. split.
  - intros (x & Hx & Heq). apply Z.eqb_eq in Heq. now subst.
  - intros H. exists (Z.of_nat mode). split; [assumption | apply Z.eqb_refl].
Qed.

(** With [modes = range(n)] every factor matrix is selected. *)
Lemma columns_from_range (n p : nat) (fms : list ndarray2) :
  forall mode, mode + length fms <= n ->
  Forall (fun fm => p < shape1 fm) fms ->
  WorstDegeneracy.columns_from (Some (pyrange n)) p mode fms =
  Ok (map (column_values p) fms).
Proof.
  induction fms as [| fm fms IH]; intros mode Hn Hall; simpl; [reflexivity |].
  inversion Hall as [| ? ? Hp Hrest]; subst. simpl in Hn.
  rewrite py_in_pyrange by lia. unfold column.
  apply Nat.ltb_lt in Hp. rewrite Hp. simpl.
  rewrite IH by (assumption || lia). reflexivity.
Qed.

Lemma columns_from_range_short (n p : nat) (fms : list ndarray2) :
  forall mode, mode + length fms <= n ->
  Exists (fun fm => shape1 fm <= p) fms ->
  WorstDegeneracy.columns_from (Some (pyrange n)) p mode fms = Raise IndexError.
Proof.
  induction fms as [| fm fms IH]; intros mode Hn Hex; simpl.
  - inversion Hex.
  - simpl in Hn. rewrite py_in_pyrange by lia. unfold column.
    destruct (Nat.ltb_spec p (shape1 fm)) as [Hlt | Hge]; simpl; [| reflexivity].
    inversion Hex as [? ? Hhd | ? ? Htl]; subst; [lia |].
    rewrite IH by (assumption || lia). reflexivity.
Qed.

(** With [modes] never assigned, the first element of the comprehension
    raises. *)
Lemma columns_from_unbound (p mode : nat) (fms : list ndarray2) :
  fms <> [] -> WorstDegeneracy.columns_from None p mode fms = Raise NameError.
Proof. destruct fms; [congruence | reflexivity]. Qed.

(** The selection raises nothing but [IndexError] and [NameError]. *)
Lemma columns_from_raises (modes : option (list Z)) (p : nat)
  (fms : list ndarray2) :
  forall mode e, WorstDegeneracy.columns_from modes p mode fms = Raise e ->
                 e = IndexError \/ e = NameError.
Proof.
  induction fms as [| fm fms IH]; intros mode e; simpl; [discriminate |].
  destruct modes as [ms |]; simpl; [| intros H; inversion H; auto].
  destruct (py_in mode ms); [| apply IH].
  unfold column. destruct (p <? shape1 fm); simpl.
  - specialize (IH (S mode)).
    destruct (WorstDegeneracy.columns_from (Some ms) p (S mode) fms);
      simpl; [discriminate | intros H; inversion H; subst; apply IH; reflexivity].
  - intros H; inversion H; auto.
Qed.

(** A bound [modes] selects by membership: the order of the subset and the
    indices that name no mode play no part. *)
Lemma columns_from_ext (ms ms' : list Z) (p : nat) (fms : list ndarray2) :
  forall mode,
  (forall k, mode <= k < mode + length fms ->
             (In (Z.of_nat k) ms <-> In (Z.of_nat k) ms')) ->
  WorstDegeneracy.columns_from (Some ms) p mode fms =
  WorstDegeneracy.columns_from (Some ms') p mode fms.
Proof.
  induction fms as [| fm fms IH]; intros mode H; simpl; [reflexivity |].
  simpl in H.
  assert (Heq : py_in mode ms = py_in mode ms').
  { apply eq_true_iff_eq. rewrite !py_in_spec. apply H. lia. }
  rewrite Heq, (IH (S mode)) by (intros; apply H; lia). reflexivity.
Qed.

(** The selection a bound [modes] makes does not depend on the order in
    which the subset lists its modes. *)
Lemma columns_permutation (ms ms' : list Z) (p : nat) (d : Decomposition) :
  Permutation ms ms' ->
  WorstDegeneracy.columns (Some ms) p d = WorstDegeneracy.columns (Some ms') p d.
Proof.
  intros Hperm. unfold WorstDegeneracy.columns. apply columns_from_ext.
  intros k _. split; intros Hin.
  - eapply Permutation_in; eassumption.
  - eapply Permutation_in; [apply Permutation_sym|]; eassumption.
Qed.

(** ** The degeneracy scorer with no mode subset *)

Section ScorerFacts.

Variable fms : list (list float) -> list (list float) -> bool -> bool -> float.

Lemma columns_all_modes (d : Decomposition) (R p : nat) :
  Forall (fun fm => R <= shape1 fm) (factor_matrices d) -> p < R ->
  WorstDegeneracy.columns (all_modes d) p d = Ok (component d p).
Proof.
  intros Hall Hp. unfold WorstDegeneracy.columns, all_modes, component.
  apply columns_from_range; [lia |].
  eapply Forall_impl; [| exact Hall]. simpl. intros; lia.
Qed.

Lemma body_all_modes (d : Decomposition) (R : nat) (pair : nat * nat) :
  Forall (fun fm => R <= shape1 fm) (factor_matrices d) ->
  In pair (permutations2 R) ->
  forall l, WorstDegeneracy.body fms (all_modes d) d pair l =
            ([pair], Ok (update fms d l pair)).
Proof.
  intros Hall Hin l. destruct pair as [p1 p2].
  apply In_permutations2 in Hin. destruct Hin as (H1 & H2 & _).
  unfold WorstDegeneracy.body.
  rewrite (columns_all_modes d Hall H1), (columns_all_modes d Hall H2).
  unfold update, pair_score, logged. simpl.
  destruct (fms (component d p1) (component d p2) false false
            <? WorstDegeneracy.min_score l)%float; reflexivity.
Qed.

Lemma loop_all_modes (d : Decomposition) (R : nat) :
  Forall (fun fm => R <= shape1 fm) (factor_matrices d) ->
  for_each (permutations2 R) (WorstDegeneracy.body fms (all_modes d) d) initial
  = (permutations2 R, Ok (fold_left (update fms d) (permutations2 R) initial)).
Proof.
  intros Hall.
  rewrite for_each_pure with (f := update fms d) (ev := fun pair => pair).
  - now rewrite map_id.
  - intros pair Hin l. now apply body_all_modes with (R := R).
Qed.

(** After a non-empty sequence of pairs with scores below plus infinity,
    the local variables hold a pair of the sequence and its score; that
    score is strictly below the score of every pair before it and below or
    equal to the score of every pair after it: the first minimum wins. *)
Lemma fold_update_first (d : Decomposition) (ps : list (nat * nat)) :
  (forall pair, In pair ps -> (pair_score fms d pair <? infinity)%float = true) ->
  ps <> [] ->
  exists before pair after,
    ps = before ++ pair :: after /\
    fold_left (update fms d) ps initial =
      {| WorstDegeneracy.min_score := pair_score fms d pair;
         WorstDegeneracy.worst_p1 := Some (fst pair);
         WorstDegeneracy.worst_p2 := Some (snd pair) |} /\
    (forall q, In q before ->
       (pair_score fms d pair <? pair_score fms d q)%float = true) /\
    (forall q, In q after ->
       (pair_score fms d pair <=? pair_score fms d q)%float = true).
Proof.
  induction ps as [| x ps IH] using rev_ind; intros Hfin Hne; [congruence |].
  rewrite fold_left_app. simpl.
  assert (Hx : (pair_score fms d x <? infinity)%float = true)
    by (apply Hfin, in_or_app; right; left; reflexivity).
  assert (Hps : ps = [] \/ ps <> [])
    by (destruct ps; [left; reflexivity | right; discriminate]).
  destruct Hps as [-> | Hps].
  - simpl. unfold update. simpl. rewrite Hx.
    exists [], x, []. repeat split; intros q [].
  - destruct IH as (before & m & after & Heq & Hfold & Hbefore & Hafter);
      [intros; apply Hfin, in_or_app; left; assumption | assumption |].
    rewrite Hfold. unfold update at 1. simpl.
    assert (Hm : (pair_score fms d m <? infinity)%float = true).
    { apply Hfin, in_or_app. left. rewrite Heq.
      apply in_or_app. right. left. reflexivity. }
    destruct (pair_score fms d x <? pair_score fms d m)%float eqn:Hlt.
    + exists ps, x, []. split; [reflexivity |]. split; [reflexivity |].
      split; [| intros q []].
      intros q Hq. rewrite Heq in Hq. apply in_app_or in Hq.
      destruct Hq as [Hq | [<- | Hq]].
      * apply float_ltb_leb_trans_lt with (y := pair_score fms d m);
          [exact Hlt | apply float_ltb_leb, Hbefore, Hq].
      * exact Hlt.
      * apply float_ltb_leb_trans_lt with (y := pair_score fms d m);
          [exact Hlt | apply Hafter, Hq].
    + exists before, m, (after ++ [x]).
      split; [rewrite Heq, <- app_assoc; reflexivity |].
      split; [reflexivity |]. split; [assumption |].
      intros q Hq. apply in_app_or in Hq. destruct Hq as [Hq | [<- | []]].
      * apply Hafter, Hq.
      * apply float_not_ltb_leb; [| | exact Hlt];
          eapply float_ltb_not_nan; eassumption.
Qed.

Lemma fold_update_min (d : Decomposition) (ps : list (nat * nat)) :
  (forall pair, In pair ps -> (pair_score fms d pair <? infinity)%float = true) ->
  ps <> [] ->
  exists pair,
    In pair ps /\
    fold_left (update fms d) ps initial =
      {| WorstDegeneracy.min_score := pair_score fms d pair;
         WorstDegeneracy.worst_p1 := Some (fst pair);
         WorstDegeneracy.worst_p2 := Some (snd pair) |} /\
    forall q, In q ps -> (pair_score fms d pair <=? pair_score fms d q)%float = true.
Proof.
  intros Hfin Hne.
  destruct (fold_update_first Hfin Hne)
    as (before & pair & after & Heq & Hfold & Hbefore & Hafter).
  assert (Hin : In pair ps)
    by (rewrite Heq; apply in_or_app; right; left; reflexivity).
  exists pair. split; [assumption |]. split; [assumption |].
  intros q Hq. rewrite Heq in Hq. apply in_app_or in Hq.
  destruct Hq as [Hq | [<- | Hq]].
  - apply float_ltb_leb, Hbefore, Hq.
  - apply float_leb_refl. eapply float_ltb_not_nan. apply Hfin, Hin.
  - apply Hafter, Hq.
Qed.

(** Whatever the scores, NaN included: the minimum kept is not NaN, no
    score compares below it, and it is either plus infinity, with no pair
    kept, or the score of the pair kept. *)
Lemma fold_update_lower_bound (d : Decomposition) (ps : list (nat * nat)) :
  let l := fold_left (update fms d) ps initial in
  not_nan (WorstDegeneracy.min_score l) /\
  (forall q, In q ps ->
     (pair_score fms d q <? WorstDegeneracy.min_score l)%float = false) /\
  (l = initial \/
   exists pair,
     In pair ps /\
     l = {| WorstDegeneracy.min_score := pair_score fms d pair;
            WorstDegeneracy.worst_p1 := Some (fst pair);
            WorstDegeneracy.worst_p2 := Some (snd pair) |}).
Proof.
  induction ps as [| x ps IH] using rev_ind; simpl.
  - split; [apply float_infinity_not_nan |]. split; [intros q [] | now left].
  - rewrite fold_left_app. simpl.
    destruct IH as (Hnan & Hlow & Hkept).
    set (l := fold_left (update fms d) ps initial) in *.
    unfold update.
    destruct (pair_score fms d x <? WorstDegeneracy.min_score l)%float eqn:Hlt;
      simpl.
    + split; [eapply float_ltb_not_nan; exact Hlt |]. split.
      * intros q Hq. apply in_app_or in Hq. destruct Hq as [Hq | [<- | []]];
          [| apply float_ltb_irrefl].
        destruct (pair_score fms d q <? pair_score fms d x)%float eqn:Hqx;
          [| reflexivity].
        rewrite <- (Hlow q Hq). symmetry.
        apply float_ltb_leb_trans_lt with (y := pair_score fms d x);
          [exact Hqx | apply float_ltb_leb, Hlt].
      * right. exists x. split; [| reflexivity].
        apply in_or_app. right. left. reflexivity.
    + split; [exact Hnan |]. split.
      * intros q Hq. apply in_app_or in Hq. destruct Hq as [Hq | [<- | []]];
          [apply Hlow, Hq | exact Hlt].
      * destruct Hkept as [Hinit | (pair & Hin & Hl)]; [now left |].
        right. exists pair. split; [| assumption].
        apply in_or_app. now left.
Qed.

(** The run of the scorer with no mode subset, on a decomposition whose
    factor matrices all have the columns of the first. *)
Lemma evaluate_all_modes (d : Decomposition) (R : nat) (flag : bool) :
  covers_rank d R ->
  WorstDegeneracy._evaluate fms (default_scorer flag) d =
  (permutations2 R,
   returned flag (fold_left (update fms d) (permutations2 R) initial)).
Proof.
  intros [(fm & rest & Hd & HR) Hall].
  unfold WorstDegeneracy._evaluate, WorstDegeneracy.modes_local, default_scorer.
  simpl WorstDegeneracy.modes. simpl WorstDegeneracy.return_permutation.
  pose proof (loop_all_modes d Hall) as Hloop. unfold all_modes, initial in Hloop.
  replace (getitem (factor_matrices d) 0) with (Ok fm)
    by (rewrite Hd; reflexivity).
  unfold lift at 1. unfold bind at 1. rewrite HR, Hloop.
  fold initial. generalize (fold_left (update fms d) (permutations2 R) initial).
  intros l. unfold returned, bind, lift, ret, read_local.
  destruct flag; [| simpl; now rewrite app_nil_r].
  destruct (WorstDegeneracy.worst_p1 l), (WorstDegeneracy.worst_p2 l);
    simpl; now rewrite ?app_nil_r.
Qed.

(** Whatever the evaluator and the decomposition, the calls of the metric
    are pairs the loop iterates over. *)
Lemma body_calls (modes : option (list Z)) (d : Decomposition)
  (pair : nat * nat) (l : WorstDegeneracy.locals) :
  Forall (eq pair) (calls (WorstDegeneracy.body fms modes d pair l)).
Proof.
  destruct pair as [p1 p2]. unfold WorstDegeneracy.body, lift, bind, ret, logged.
  destruct (WorstDegeneracy.columns modes p1 d); simpl; [| constructor].
  destruct (WorstDegeneracy.columns modes p2 d); simpl; [| constructor].
  destruct (_ <? _)%float; simpl; repeat constructor.
Qed.

Lemma body_raises (modes : option (list Z)) (d : Decomposition)
  (pair : nat * nat) (l : WorstDegeneracy.locals) (e : exn) :
  outcome (WorstDegeneracy.body fms modes d pair l) = Raise e ->
  e = IndexError \/ e = NameError.
Proof.
  destruct pair as [p1 p2]. unfold WorstDegeneracy.body, lift, bind, ret, logged.
  unfold WorstDegeneracy.columns.
  destruct (WorstDegeneracy.columns_from modes p1 0 (factor_matrices d))
    eqn:H1; simpl.
  - destruct (WorstDegeneracy.columns_from modes p2 0 (factor_matrices d))
      eqn:H2; simpl.
    + destruct (_ <? _)%float; simpl; discriminate.
    + intros H; inversion H; subst. eapply columns_from_raises; eassumption.
  - intros H; inversion H; subst. eapply columns_from_raises; eassumption.
Qed.

Lemma evaluate_calls (self : WorstDegeneracy.t) (d : Decomposition) :
  forall c, In c (calls (WorstDegeneracy._evaluate fms self d)) ->
  exists fm, getitem (factor_matrices d) 0 = Ok fm /\
             In c (permutations2 (shape1 fm)).
Proof.
  intros c. unfold WorstDegeneracy._evaluate.
  rewrite calls_bind. unfold lift at 1 2. simpl calls at 1. simpl outcome at 1.
  destruct (getitem (factor_matrices d) 0) as [fm |]; simpl; [| tauto].
  rewrite calls_bind. intros Hin. exists fm. split; [reflexivity |].
  apply in_app_or in Hin. destruct Hin as [Hin | Hin].
  - pose proof (@for_each_calls_incl _ _ _
        (WorstDegeneracy.body fms (WorstDegeneracy.modes_local self d) d)
        (fun c => In c (permutations2 (shape1 fm)))
        (permutations2 (shape1 fm))) as Hall.
    eapply Forall_forall in Hall; [exact Hall | | exact Hin].
    intros x l Hx. eapply Forall_impl; [| apply body_calls].
    simpl. intros a <-. exact Hx.
  - destruct (outcome (for_each _ _ _)) as [l |]; [| destruct Hin].
    destruct (WorstDegeneracy.return_permutation self); [| destruct Hin].
    unfold lift, bind, ret, read_local in Hin.
    destruct (WorstDegeneracy.worst_p1 l), (WorstDegeneracy.worst_p2 l);
      destruct Hin.
Qed.

(** The scorer raises nothing but [IndexError] and [NameError]. *)
Lemma evaluate_raises (self : WorstDegeneracy.t) (d : Decomposition) (e : exn) :
  outcome (WorstDegeneracy._evaluate fms self d) = Raise e ->
  e = IndexError \/ e = NameError.
Proof.
  unfold WorstDegeneracy._evaluate. rewrite outcome_bind.
  destruct (factor_matrices d) as [| fm rest] eqn:Hd; simpl;
    [intros H; inversion H; auto |].
  rewrite outcome_bind.
  destruct (outcome (for_each _ _ _)) as [l |] eqn:Hloop.
  - destruct (WorstDegeneracy.return_permutation self); [| discriminate].
    unfold lift, bind, ret, read_local.
    destruct (WorstDegeneracy.worst_p1 l), (WorstDegeneracy.worst_p2 l);
      simpl; intros H; inversion H; auto.
  - intros H; inversion H; subst.
    eapply (@for_each_raises _ _ _ _ (fun e => e = IndexError \/ e = NameError));
      [| exact Hloop].
    intros x l e0 _. apply body_raises.
Qed.

(** With [modes = range(n)] the selection of column [p] succeeds when every
    factor matrix has it and raises [IndexError] otherwise. *)
Lemma columns_all_modes_cases (d : Decomposition) (p : nat) :
  WorstDegeneracy.columns (all_modes d) p d = Ok (component d p) /\
  Forall (fun fm => p < shape1 fm) (factor_matrices d)
  \/
  WorstDegeneracy.columns (all_modes d) p d = Raise IndexError /\
  Exists (fun fm => shape1 fm <= p) (factor_matrices d).
Proof.
  unfold WorstDegeneracy.columns, all_modes, component.
  destruct (Forall_Exists_dec (fun fm => p < shape1 fm)
              (fun fm => lt_dec p (shape1 fm)) (factor_matrices d))
    as [Hall | Hex].
  - left. split; [| assumption]. apply columns_from_range; [lia | assumption].
  - assert (Hex' : Exists (fun fm => shape1 fm <= p) (factor_matrices d))
      by (eapply Exists_impl; [| exact Hex]; simpl; intros; lia).
    right. split; [| assumption].
    apply columns_from_range_short; [lia | assumption].
Qed.

Lemma body_all_modes_raises (d : Decomposition) (pair : nat * nat)
  (l : WorstDegeneracy.locals) (e : exn) :
  outcome (WorstDegeneracy.body fms (all_modes d) d pair l) = Raise e ->
  e = IndexError.
Proof.
  destruct pair as [p1 p2]. unfold WorstDegeneracy.body, lift, bind, ret, logged.
  destruct (columns_all_modes_cases d p1) as [[-> _] | [-> _]]; simpl;
    [| congruence].
  destruct (columns_all_modes_cases d p2) as [[-> _] | [-> _]]; simpl;
    [| congruence].
  destruct (_ <? _)%float; simpl; discriminate.
Qed.

Lemma body_all_modes_short (d : Decomposition) (p1 p2 : nat)
  (l : WorstDegeneracy.locals) :
  Exists (fun fm => shape1 fm <= p2) (factor_matrices d) ->
  outcome (WorstDegeneracy.body fms (all_modes d) d (p1, p2) l) =
  Raise IndexError.
Proof.
  intros Hex. unfold WorstDegeneracy.body, lift, bind, ret, logged.
  destruct (columns_all_modes_cases d p1) as [[-> _] | [-> _]]; simpl;
    [| reflexivity].
  destruct (columns_all_modes_cases d p2) as [[_ Hall] | [-> _]]; simpl;
    [| reflexivity].
  exfalso. apply Exists_exists in Hex. destruct Hex as (fm & Hin & Hle).
  rewrite Forall_forall in Hall. specialize (Hall fm Hin). lia.
Qed.

(** A factor matrix with fewer columns than the first makes the scorer
    raise [IndexError]. *)
Lemma evaluate_short (d : Decomposition) (fm : ndarray2)
  (rest : list ndarray2) (flag : bool) :
  factor_matrices d = fm :: rest -> 2 <= shape1 fm ->
  Exists (fun fm' => shape1 fm' < shape1 fm) rest ->
  outcome (WorstDegeneracy._evaluate fms (default_scorer flag) d) =
  Raise IndexError.
Proof.
  intros Hd HR Hex. unfold WorstDegeneracy._evaluate.
  rewrite outcome_bind. rewrite Hd at 1.
  change (getitem (fm :: rest) 0) with (Ok fm).
  unfold lift at 1. unfold outcome at 1. cbv beta iota. unfold snd at 1.
  cbv beta iota zeta.
  rewrite outcome_bind.
  replace (WorstDegeneracy.modes_local (default_scorer flag) d)
    with (all_modes d) by reflexivity.
  rewrite for_each_raises_at with (e := IndexError); [reflexivity | |].
  - intros x l e _. apply body_all_modes_raises.
  - apply Exists_exists in Hex. destruct Hex as (fm' & Hin & Hlt).
    exists (if shape1 fm' =? 0 then 1 else 0, shape1 fm'). split.
    + apply In_permutations2. destruct (Nat.eqb_spec (shape1 fm') 0); lia.
    + intros l. apply body_all_modes_short. rewrite Hd.
      apply Exists_cons_tl, Exists_exists. exists fm'. split; [assumption | lia].
Qed.

Lemma permutations2_below_2 (R : nat) : R < 2 -> permutations2 R = [].
Proof.
  intros H. destruct R as [| [| R]]; [reflexivity | reflexivity | lia].
Qed.

Lemma permutations2_head (R : nat) :
  2 <= R -> exists tl, permutations2 R = (0, 1) :: tl.
Proof.
  intros H. destruct R as [| [| R]]; [lia | lia |].
  unfold permutations2. simpl. eexists. reflexivity.
Qed.

(** An explicit mode subset leaves [modes] unassigned: with two components
    or more the first selection raises, before any call of the metric. *)
Lemma evaluate_subset (d : Decomposition) (fm : ndarray2)
  (rest : list ndarray2) (ms : list Z) (flag : bool) :
  factor_matrices d = fm :: rest -> 2 <= shape1 fm ->
  WorstDegeneracy._evaluate fms (subset_scorer ms flag) d =
  ([], Raise NameError).
Proof.
  intros Hd HR. unfold WorstDegeneracy._evaluate.
  rewrite Hd at 1. change (getitem (fm :: rest) 0) with (Ok fm). unfold lift at 1. unfold bind at 1.
  destruct (permutations2_head HR) as (tl & ->).
  simpl. unfold WorstDegeneracy.columns. rewrite Hd. reflexivity.
Qed.

(** X4. With fewer than two components the loop has no iteration, whatever
    the mode subset and the other factor matrices: the metric is not called,
    the score plus infinity is returned when the permutation is not asked
    for, and [NameError] is raised when it is. *)
Lemma evaluate_rank_below_2 (self : WorstDegeneracy.t) (d : Decomposition)
  (fm : ndarray2) (rest : list ndarray2) :
  factor_matrices d = fm :: rest -> shape1 fm < 2 ->
  WorstDegeneracy._evaluate fms self d =
  ([], if WorstDegeneracy.return_permutation self
       then Raise NameError
       else Ok {| WorstDegeneracy.worst_degeneracy := infinity;
                  WorstDegeneracy.permutation := None |}).
Proof.
  intros Hd HR. unfold WorstDegeneracy._evaluate.
  rewrite Hd at 1. change (getitem (fm :: rest) 0) with (Ok fm). unfold lift at 1. unfold bind at 1.
  rewrite (permutations2_below_2 HR). simpl.
  destruct (WorstDegeneracy.return_permutation self); reflexivity.
Qed.

(** The result with no mode subset, when the scores are numbers below plus
    infinity: the score of a pair of distinct components that no other
    pair's score is below, and that pair when it is asked for. *)
Lemma evaluate_min (d : Decomposition) (R : nat) (flag : bool) :
  covers_rank d R -> 2 <= R -> scores_finite fms d R ->
  exists pair,
    In pair (permutations2 R) /\
    WorstDegeneracy._evaluate fms (default_scorer flag) d =
      (permutations2 R,
       Ok {| WorstDegeneracy.worst_degeneracy := pair_score fms d pair;
             WorstDegeneracy.permutation :=
               if flag then Some pair else None |}) /\
    forall q, In q (permutations2 R) ->
              (pair_score fms d pair <=? pair_score fms d q)%float = true.
Proof.
  intros Hcov HR Hfin.
  destruct (fold_update_min Hfin (permutations2_nonempty HR))
    as (pair & Hin & Hfold & Hmin).
  exists pair. split; [assumption |]. split; [| assumption].
  rewrite (evaluate_all_modes flag Hcov), Hfold.
  unfold returned. simpl. destruct pair, flag; reflexivity.
Qed.

(** X1. Ties are broken by the order of the iteration: with no mode subset
    and scores below plus infinity, the pair whose score is returned scores
    strictly below every pair iterated before it and below or equal to every
    pair iterated after it, so the first pair, in ascending [p1] and then
    ascending [p2], to attain the minimum is the one reported. *)
Lemma evaluate_first_minimum (d : Decomposition) (R : nat) (flag : bool) :
  covers_rank d R -> 2 <= R -> scores_finite fms d R ->
  exists before pair after,
    permutations2 R = before ++ pair :: after /\
    outcome (WorstDegeneracy._evaluate fms (default_scorer flag) d) =
      Ok {| WorstDegeneracy.worst_degeneracy := pair_score fms d pair;
            WorstDegeneracy.permutation :=
              if flag then Some pair else None |} /\
    (forall q, In q before ->
       (pair_score fms d pair <? pair_score fms d q)%float = true) /\
    (forall q, In q after ->
       (pair_score fms d pair <=? pair_score fms d q)%float = true).
Proof.
  intros Hcov HR Hfin.
  destruct (fold_update_first Hfin (permutations2_nonempty HR))
    as (before & pair & after & Heq & Hfold & Hbefore & Hafter).
  exists before, pair, after. split; [assumption |].
  split; [| split; assumption].
  rewrite (evaluate_all_modes flag Hcov), Hfold.
  unfold returned. simpl. destruct pair, flag; reflexivity.
Qed.


Lemma scores_finite_check (d : Decomposition) (R : nat) :
  forallb (fun pair => (pair_score fms d pair <? infinity)%float)
          (permutations2 R) = true ->
  scores_finite fms d R.
Proof. intros H pair Hin. rewrite forallb_forall in H. now apply H. Qed.

(** ** The properties of the degeneracy scorer, for any metric *)


(** C3, as the code has it.  No rank check exists and [ShapeMismatchError]
    is never raised: the rank [R] is the column count of the first factor
    matrix.  With no mode subset and [R >= 2], a factor matrix with fewer
    than [R] columns makes the column extraction raise [IndexError]; when
    every factor matrix has at least [R] columns the disagreement raises no
    [IndexError] and every pair below [R] is scored, the columns from [R]
    on being ignored; when moreover the scores are all numbers below plus
    infinity, the minimum over those pairs is returned. *)
Theorem rank_disagreement_not_checked :
  (forall self d,
     outcome (WorstDegeneracy._evaluate fms self d)
     <> Raise ShapeMismatchError) /\
  (forall d fm rest flag,
     factor_matrices d = fm :: rest -> 2 <= shape1 fm ->
     (Exists (fun fm' => shape1 fm' < shape1 fm) rest ->
      outcome (WorstDegeneracy._evaluate fms (default_scorer flag) d) =
      Raise IndexError) /\
     (Forall (fun fm' => shape1 fm <= shape1 fm') rest ->
      calls (WorstDegeneracy._evaluate fms (default_scorer flag) d) =
        permutations2 (shape1 fm) /\
      outcome (WorstDegeneracy._evaluate fms (default_scorer flag) d)
      <> Raise IndexError /\
      (scores_finite fms d (shape1 fm) ->
       exists pair,
         In pair (permutations2 (shape1 fm)) /\
         outcome (WorstDegeneracy._evaluate fms (default_scorer flag) d) =
           Ok {| WorstDegeneracy.worst_degeneracy := pair_score fms d pair;
                 WorstDegeneracy.permutation :=
                   if flag then Some pair else None |} /\
         forall q, In q (permutations2 (shape1 fm)) ->
           (pair_score fms d pair <=? pair_score fms d q)%float = true))).
Proof.
  split.
  - intros self d H. apply evaluate_raises in H. destruct H; discriminate.
  - intros d fm rest flag Hd HR. split.
    + intros Hex. eapply evaluate_short; eassumption.
    + intros Hall.
      assert (Hcov : covers_rank d (shape1 fm)).
      { split; [exists fm, rest; auto |]. rewrite Hd. constructor; auto. }
      split; [| split].
      * rewrite (evaluate_all_modes flag Hcov). reflexivity.
      * rewrite (evaluate_all_modes flag Hcov). unfold outcome, returned.
        cbn [snd].
        generalize (fold_left (update fms d) (permutations2 (shape1 fm))
                      initial).
        intros l. destruct flag; [| discriminate].
        destruct (WorstDegeneracy.worst_p1 l), (WorstDegeneracy.worst_p2 l);
          discriminate.
      * intros Hfin.
        destruct (evaluate_min flag Hcov HR Hfin)
          as (pair & Hin & Heval & Hmin).
        rewrite Heval. exists pair. auto.
Qed.

(** C4, as the code has it.  Mode indices are not validated and
    [InvalidModeIndexError] is never raised: the selection keeps the factor
    matrices whose position is a member of [modes], so an index outside
    [[0, num_modes)] selects nothing. *)
Theorem mode_indices_not_validated :
  (forall self d,
     outcome (WorstDegeneracy._evaluate fms self d)
     <> Raise InvalidModeIndexError) /\
  (forall ms bad p d,
     (bad < 0 \/ Z.of_nat (length (factor_matrices d)) <= bad)%Z ->
     WorstDegeneracy.columns (Some (bad :: ms)) p d =
     WorstDegeneracy.columns (Some ms) p d).
Proof.
  split.
  - intros self d H. apply evaluate_raises in H. destruct H; discriminate.
  - intros ms bad p d Hbad. unfold WorstDegeneracy.columns.
    apply columns_from_ext. intros k Hk. simpl. split; [| auto].
    intros [Heq | Hin]; [lia | assumption].
Qed.

End ScorerFacts.

(** ** The scorer on the inputs of the examples, with the cosine metric *)



(** The column counts 3 and 4 raise nothing: the six pairs of the first
    three columns are scored and a score is returned. *)
Lemma ranks_3_and_4_scored :
  map shape1 (factor_matrices ranks_3_and_4) = [3; 4] /\
  WorstDegeneracy._evaluate metrics._factor_match_score
    (default_scorer false) ranks_3_and_4 =
  ([(0, 1); (0, 2); (1, 0); (1, 2); (2, 0); (2, 1)],
   Ok {| WorstDegeneracy.worst_degeneracy := 0;
         WorstDegeneracy.permutation := None |}) /\
  outcome (WorstDegeneracy._evaluate metrics._factor_match_score
             (default_scorer false) ranks_3_and_4)
  <> Raise ShapeMismatchError.
Proof.
  split; [reflexivity |]. split; [vm_compute; reflexivity |].
  vm_compute. discriminate.
Qed.

(** The column counts 4 and 3 raise [IndexError], after two pairs have been
    scored. *)
Example ranks_4_and_3_raise :
  WorstDegeneracy._evaluate metrics._factor_match_score
    (default_scorer false) ranks_4_and_3 =
  ([(0, 1); (0, 2)], Raise IndexError).
Proof. vm_compute. reflexivity. Qed.

Lemma rank_disagreement_not_checked_witness :
  outcome (WorstDegeneracy._evaluate metrics._factor_match_score
             (default_scorer false) ranks_4_and_3) = Raise IndexError /\
  calls (WorstDegeneracy._evaluate metrics._factor_match_score
           (default_scorer false) ranks_3_and_4) = permutations2 3.
Proof.
  destruct (rank_disagreement_not_checked metrics._factor_match_score)
    as [_ H].
  split.
  - refine (proj1 (H ranks_4_and_3 _ _ false eq_refl _) _).
    + simpl. lia.
    + apply Exists_cons_hd. simpl. lia.
  - refine (proj1 (proj2 (H ranks_3_and_4 _ _ false eq_refl _) _)).
    + simpl. lia.
    + constructor; [simpl; lia | constructor].
Defined.

(** A subset naming mode 7 of a two-mode decomposition raises no
    [InvalidModeIndexError]: the scorer raises [NameError] at rank 2 and
    returns plus infinity at rank 1. *)
Lemma mode_7_not_rejected :
  WorstDegeneracy._evaluate metrics._factor_match_score
    (subset_scorer [7%Z] false) known_input = ([], Raise NameError) /\
  WorstDegeneracy._evaluate metrics._factor_match_score
    (subset_scorer [7%Z] false) rank_1 =
  ([], Ok {| WorstDegeneracy.worst_degeneracy := infinity;
             WorstDegeneracy.permutation := None |}) /\
  outcome (WorstDegeneracy._evaluate metrics._factor_match_score
             (subset_scorer [7%Z] false) known_input)
  <> Raise InvalidModeIndexError.
Proof.
  split; [vm_compute; reflexivity |]. split; [vm_compute; reflexivity |].
  vm_compute. discriminate.
Qed.

Lemma mode_indices_not_validated_witness :
  WorstDegeneracy.columns (Some [7; 0]%Z) 1 known_input =
  WorstDegeneracy.columns (Some [0]%Z) 1 known_input.
Proof.
  refine (proj2 (mode_indices_not_validated metrics._factor_match_score)
            [0%Z] 7%Z 1 known_input _).
  right. simpl. lia.
Defined.

(** C2. With an explicit mode subset the scorer does not return a score:
    [modes] is assigned in the [if self.modes is None] branch only, and the
    first selection raises [NameError], whatever the metric. *)
Theorem explicit_mode_subset_raises :
  forall fms,
    WorstDegeneracy._evaluate fms (subset_scorer [0%Z] false) known_input =
      ([], Raise NameError) /\
    WorstDegeneracy._evaluate fms (subset_scorer [0%Z; 1%Z] true) known_input =
      ([], Raise NameError).
Proof. intros fms. split; reflexivity. Qed.

(** C6. For the known input, of rank 2, the scorer called with the explicit
    subset of all modes calls the metric on no pair, whatever the metric,
    where [2 * (2 - 1)] pairs are to be scored and the call with no subset
    scores them: the loop stops in its first iteration, at the selection
    that reads the unassigned [modes]. *)
Theorem explicit_subset_scores_no_pair :
  forall fms,
    has_rank known_input 2 /\
    WorstDegeneracy._evaluate fms (subset_scorer [0%Z; 1%Z] false)
      known_input = ([], Raise NameError) /\
    length (calls (WorstDegeneracy._evaluate fms
                     (subset_scorer [0%Z; 1%Z] false) known_input)) = 0 /\
    length (calls (WorstDegeneracy._evaluate fms (default_scorer false)
                     known_input)) = 2 * (2 - 1).
Proof.
  intros fms. split; [split; [discriminate | repeat constructor] |].
  split; [reflexivity |]. split; [reflexivity |].
  rewrite (@evaluate_all_modes fms known_input 2 false); [reflexivity |].
  split; [eexists; eexists; split; reflexivity | repeat constructor].
Qed.

(** C5. At rank 1 the two values of the flag behave differently: the
    score plus infinity is returned when no pair is asked for, and
    [NameError] is raised when one is, [worst_p1] having no value. *)
Theorem rank_1_depends_on_flag :
  forall fms,
    WorstDegeneracy._evaluate fms (default_scorer false) rank_1 =
      ([], Ok {| WorstDegeneracy.worst_degeneracy := infinity;
                 WorstDegeneracy.permutation := None |}) /\
    WorstDegeneracy._evaluate fms (default_scorer true) rank_1 =
      ([], Raise NameError).
Proof. intros fms. split; reflexivity. Qed.

(** C7. All modes in natural order and the same modes shuffled, given as
    explicit subsets, yield no score to compare: both calls raise
    [NameError], whatever the metric, where the call with no subset scores
    the two pairs. *)
Theorem shuffled_modes_raise :
  forall fms,
    WorstDegeneracy._evaluate fms (subset_scorer [0%Z; 1%Z] false) known_input =
      ([], Raise NameError) /\
    WorstDegeneracy._evaluate fms (subset_scorer [1%Z; 0%Z] false) known_input =
      ([], Raise NameError) /\
    calls (WorstDegeneracy._evaluate fms (default_scorer false) known_input) =
      [(0, 1); (1, 0)].
Proof.
  intros fms. split; [reflexivity |]. split; [reflexivity |].
  rewrite (@evaluate_all_modes fms known_input 2 false); [reflexivity |].
  split; [eexists; eexists; split; reflexivity | repeat constructor].
Qed.

(** C8. On the known input (rank 2; mode 0 with columns [[1,0]] and
    [[0,1]], mode 1 with both columns [[1,1]]) the cosine of mode 0 is 0 and
    the cosine of mode 1 is 1 up to the rounding of binary64, so the product
    over the modes is 0 for both ordered pairs; the scorer returns the worst
    score 0 and reports the pair [(0, 1)]. *)
Theorem known_input_worst_score :
  metrics.cosine [1; 0]%float [0; 1]%float = 0%float /\
  (abs (metrics.cosine [1; 1] [1; 1] - 1) <=? 0x1p-52)%float = true /\
  pair_score metrics._factor_match_score known_input (0, 1) = 0%float /\
  pair_score metrics._factor_match_score known_input (1, 0) = 0%float /\
  exists pair,
    (pair = (0, 1) \/ pair = (1, 0)) /\
    WorstDegeneracy._evaluate metrics._factor_match_score
      (default_scorer true) known_input =
    ([(0, 1); (1, 0)],
     Ok {| WorstDegeneracy.worst_degeneracy := 0;
           WorstDegeneracy.permutation := Some pair |}) /\
    outcome (WorstDegeneracy._evaluate metrics._factor_match_score
               (default_scorer false) known_input) =
    Ok {| WorstDegeneracy.worst_degeneracy := 0;
          WorstDegeneracy.permutation := None |}.
Proof.
  repeat split; try (vm_compute; reflexivity).
  exists (0, 1). repeat split; try (vm_compute; reflexivity). now left.
Qed.

(** ** The p-value evaluator *)

Lemma skipn_nth_error {A : Type} (l : list A) :
  forall i a, nth_error l i = Some a -> skipn i l = a :: skipn (S i) l.
Proof.
  induction l as [| x l IH]; intros [| i] a H; simpl in *; try discriminate.
  - now inversion H.
  - now apply IH.
Qed.

Lemma take_rows_indices (class_ : Z) (rws : list (list float))
  (labels : list Z) :
  forall i, i + length labels <= length rws ->
  take_rows rws (PValue.indices_of class_ i labels) =
  Ok (group class_ labels (skipn i rws)).
Proof.
  induction labels as [| c cs IH]; intros i Hlen; simpl; [reflexivity |].
  simpl in Hlen.
  destruct (nth_error rws i) as [r |] eqn:Hnth;
    [| apply nth_error_None in Hnth; lia].
  rewrite (skipn_nth_error _ _ Hnth). unfold group. simpl.
  destruct (c =? class_)%Z; simpl.
  - unfold getitem. rewrite Hnth. simpl.
    rewrite IH by lia. reflexivity.
  - apply IH. lia.
Qed.

(** [min] returns a least element when no element is NaN. *)
Lemma py_min_from_least (xs : list float) :
  forall m seen,
    least m seen -> Forall not_nan seen -> Forall not_nan xs ->
    least (py_min_from m xs) (seen ++ xs).
Proof.
  induction xs as [| x xs IH]; intros m seen Hm Hseen Hxs; simpl.
  - now rewrite app_nil_r.
  - inversion Hxs as [| ? ? Hx Hrest]; subst.
    replace (seen ++ x :: xs) with ((seen ++ [x]) ++ xs)
      by (rewrite <- app_assoc; reflexivity).
    destruct Hm as [Hin Hle].
    assert (Hmn : not_nan m) by (rewrite Forall_forall in Hseen; auto).
    apply IH; [| apply Forall_app; split; [assumption | repeat constructor; assumption] | assumption].
    destruct (x <? m)%float eqn:Hlt; split.
    + apply in_or_app. right. left. reflexivity.
    + intros y Hy. apply in_app_or in Hy. destruct Hy as [Hy | [<- | []]].
      * eapply float_ltb_leb_trans; [exact Hlt | apply Hle, Hy].
      * now apply float_leb_refl.
    + apply in_or_app. left. assumption.
    + intros y Hy. apply in_app_or in Hy. destruct Hy as [Hy | [<- | []]].
      * apply Hle, Hy.
      * now apply float_not_ltb_leb.
Qed.

Lemma py_min_least (xs : list float) :
  xs <> [] -> Forall not_nan xs ->
  exists m, py_min xs = Ok m /\ least m xs.
Proof.
  destruct xs as [| x xs]; [congruence |]. intros _ Hall.
  inversion Hall as [| ? ? Hx Hrest]; subst.
  exists (py_min_from x xs). split; [reflexivity |].
  change (x :: xs) with ([x] ++ xs). apply py_min_from_least.
  - split; [left; reflexivity |]. intros y [<- | []]. now apply float_leb_refl.
  - repeat constructor. assumption.
  - assumption.
Qed.

Section PValueFacts.

Variable ttest_ind :
  list (list float) -> list (list float) -> bool -> list float.
Variable set_iter : list Z -> list Z.

(** A set yields each of its elements once. *)
Hypothesis set_iter_NoDup : forall xs, NoDup (set_iter xs).
Hypothesis set_iter_In : forall xs x, In x (set_iter xs) <-> In x xs.

Lemma length_set_iter (xs : list Z) :
  length (set_iter xs) = distinct_count xs.
Proof.
  unfold distinct_count. apply Permutation_length, NoDup_Permutation.
  - apply set_iter_NoDup.
  - apply NoDup_nodup.
  - intros x. rewrite set_iter_In, nodup_In. tauto.
Qed.

Lemma squeeze_vector (v : list Z) :
  length v <> 1 -> PValue.iterate (PValue.squeeze v) = Ok v.
Proof. destruct v as [| c [| c' v]]; simpl; congruence. Qed.

Lemma evaluate_assertion_fails (self : PValue.t) (d : Decomposition)
  (data_reader : PValue.DataReader) (factors : ndarray2) :
  py_getitem (factor_matrices d) (PValue.mode self) = Ok factors ->
  length (PValue.classes data_reader) <> 1 ->
  distinct_count (PValue.classes data_reader) <> 2 ->
  PValue._evaluate ttest_ind set_iter self d data_reader =
  ([], Raise AssertionError).
Proof.
  intros Hmode Hlen Hne. unfold PValue._evaluate.
  rewrite Hmode, (squeeze_vector _ Hlen).
  cbv beta delta [bind lift logged] iota.
  apply Nat.eqb_neq in Hne. rewrite length_set_iter, Hne. reflexivity.
Qed.

Lemma evaluate_two_classes (self : PValue.t) (d : Decomposition)
  (data_reader : PValue.DataReader) (factors : ndarray2) (a b : Z) :
  py_getitem (factor_matrices d) (PValue.mode self) = Ok factors ->
  length (PValue.classes data_reader) <> 1 ->
  set_iter (PValue.classes data_reader) = [a; b] ->
  length (PValue.classes data_reader) <= shape0 factors ->
  PValue._evaluate ttest_ind set_iter self d data_reader =
  (let labels := PValue.classes data_reader in
   let g_a := group a labels (rows factors) in
   let g_b := group b labels (rows factors) in
   ([(g_a, g_b)], py_min (ttest_ind g_a g_b false))).
Proof.
  intros Hmode Hlen Hset Hrows. unfold PValue._evaluate.
  rewrite Hmode, (squeeze_vector _ Hlen).
  cbv beta delta [bind lift logged] iota. rewrite Hset.
  unfold shape0 in Hrows.
  simpl. unfold getitem. simpl.
  rewrite !(take_rows_indices _ (rows factors) (PValue.classes data_reader) 0)
    by (simpl; lia).
  simpl. reflexivity.
Qed.

(** C10, as the code has it.  When the mode names a factor matrix and the
    class vector does not hold a single entry: a number of distinct labels
    other than two makes the assertion fail before any test is run; with
    exactly two labels [a] and [b], and a row of the factor matrix for every
    sample, the Welch test is run once, on the rows of class [a] against the
    rows of class [b], and the value returned is Python's minimum of its
    p-values, a least p-value when none of them is NaN. *)
Theorem p_value_needs_two_classes (self : PValue.t) (d : Decomposition)
  (data_reader : PValue.DataReader) (factors : ndarray2) :
  py_getitem (factor_matrices d) (PValue.mode self) = Ok factors ->
  length (PValue.classes data_reader) <> 1 ->
  let labels := PValue.classes data_reader in
  let run := PValue._evaluate ttest_ind set_iter self d data_reader in
  (distinct_count labels <> 2 -> run = ([], Raise AssertionError)) /\
  (distinct_count labels = 2 -> length labels <= shape0 factors ->
   exists a b,
     set_iter labels = [a; b] /\ a <> b /\ In a labels /\ In b labels /\
     let g_a := group a labels (rows factors) in
     let g_b := group b labels (rows factors) in
     calls run = [(g_a, g_b)] /\
     outcome run = py_min (ttest_ind g_a g_b false) /\
     (ttest_ind g_a g_b false <> [] ->
      Forall not_nan (ttest_ind g_a g_b false) ->
      exists m, outcome run = Ok m /\ least m (ttest_ind g_a g_b false))).
Proof.
  intros Hmode Hlen labels run. split.
  - intros Hne. now apply evaluate_assertion_fails with (factors := factors).
  - intros Htwo Hrows.
    pose proof (length_set_iter labels) as Hlen2. rewrite Htwo in Hlen2.
    destruct (set_iter labels) as [| a [| b [| c rest]]] eqn:Hset;
      try discriminate.
    exists a, b. split; [reflexivity |].
    pose proof (set_iter_NoDup labels) as Hnd. rewrite Hset in Hnd.
    split; [| split; [| split]].
    + inversion Hnd as [| ? ? Hnotin _]; subst. intros ->. apply Hnotin.
      left; reflexivity.
    + apply set_iter_In. rewrite Hset. left; reflexivity.
    + apply set_iter_In. rewrite Hset. right; left; reflexivity.
    + intros g_a g_b. subst run.
      rewrite (evaluate_two_classes self d data_reader Hmode Hlen Hset Hrows).
      simpl. fold labels g_a g_b.
      split; [reflexivity |]. split; [reflexivity |].
      intros Hne Hnan. apply py_min_least; assumption.
Qed.

End PValueFacts.

(** ** The p-value evaluator on examples *)

Lemma p_value_needs_two_classes_witness :
  PValue._evaluate recorded_ttest distinct {| PValue.mode := 0 |} four_samples
    {| PValue.classes := [1; 2; 3; 1]%Z |} = ([], Raise AssertionError) /\
  exists a b,
    distinct [1; 2; 2; 1]%Z = [a; b] /\
    calls (PValue._evaluate recorded_ttest distinct {| PValue.mode := 0 |}
             four_samples {| PValue.classes := [1; 2; 2; 1]%Z |}) =
    [(group a [1; 2; 2; 1]%Z (rows (array 2 [[1; 2]; [3; 4]; [5; 6]; [7; 8]]%float)),
      group b [1; 2; 2; 1]%Z (rows (array 2 [[1; 2]; [3; 4]; [5; 6]; [7; 8]]%float)))].
Proof.
  assert (Hnd : forall xs, NoDup (distinct xs))
    by (intros; apply NoDup_nodup).
  assert (Hin : forall xs x, In x (distinct xs) <-> In x xs)
    by (intros; apply nodup_In).
  split.
  - assert (Hlen : length [1; 2; 3; 1]%Z <> 1) by (simpl; lia).
    apply (@p_value_needs_two_classes recorded_ttest distinct Hnd Hin
             {| PValue.mode := 0 |} four_samples
             {| PValue.classes := [1; 2; 3; 1]%Z |} _ eq_refl Hlen).
    vm_compute. lia.
  - assert (Hlen : length [1; 2; 2; 1]%Z <> 1) by (simpl; lia).
    destruct (@p_value_needs_two_classes recorded_ttest distinct Hnd Hin
                {| PValue.mode := 0 |} four_samples
                {| PValue.classes := [1; 2; 2; 1]%Z |} _ eq_refl Hlen)
      as [_ Htwo].
    destruct Htwo as (a & b & Hset & _ & _ & _ & Hcalls & _).
    + vm_compute. reflexivity.
    + unfold shape0. simpl. lia.
    + exists a, b. split; [exact Hset | exact Hcalls].
Defined.

(** The assertion is not the only failure when the labels are not two: a
    mode that names no factor matrix raises [IndexError] first, and a class
    vector with one entry raises [TypeError] when it is iterated. *)
Lemma p_value_other_failures :
  distinct_count [1; 2; 3]%Z = 3 /\
  PValue._evaluate recorded_ttest distinct {| PValue.mode := 5 |} known_input
    {| PValue.classes := [1; 2; 3]%Z |} = ([], Raise IndexError) /\
  distinct_count [4]%Z = 1 /\
  PValue._evaluate recorded_ttest distinct {| PValue.mode := 0 |} known_input
    {| PValue.classes := [4]%Z |} = ([], Raise TypeError).
Proof. repeat split; vm_compute; reflexivity. Qed.

Example p_value_two_classes :
  PValue._evaluate recorded_ttest distinct {| PValue.mode := 0 |} four_samples
    {| PValue.classes := [1; 2; 2; 1]%Z |} =
  ([([[3; 4]; [5; 6]]%float, [[1; 2]; [7; 8]]%float)], Ok 0.03125%float).
Proof. vm_compute. reflexivity. Qed.

(* ===================================================================== *)
(** * Part III: further properties of the evaluators *)
(* ===================================================================== *)

(** ** The order of the iteration *)

Lemma StronglySorted_app_intro {A : Type} (R : A -> A -> Prop)
  (l1 l2 : list A) :
  StronglySorted R l1 -> StronglySorted R l2 ->
  (forall a b, In a l1 -> In b l2 -> R a b) ->
  StronglySorted R (l1 ++ l2).
Proof.
  induction l1 as [| x l1 IH]; intros H1 H2 H12; simpl; [assumption |].
  apply StronglySorted_inv in H1. destruct H1 as [H1 Hx].
  constructor.
  - apply IH; [assumption | assumption |].
    intros a b Ha Hb. apply H12; [right |]; assumption.
  - apply Forall_app. split; [assumption |].
    apply Forall_forall. intros b Hb. apply H12; [left; reflexivity | assumption].
Qed.

Lemma StronglySorted_app_after {A : Type} (R : A -> A -> Prop)
  (l1 l2 : list A) (x : A) :
  StronglySorted R (l1 ++ x :: l2) -> forall y, In y l2 -> R x y.
Proof.
  induction l1 as [| a l1 IH]; simpl; intros H y Hy.
  - apply StronglySorted_inv in H. destruct H as [_ H].
    rewrite Forall_forall in H. now apply H.
  - apply StronglySorted_inv in H. destruct H as [H _]. now apply IH.
Qed.

Lemma StronglySorted_firstn {A : Type} (R : A -> A -> Prop) (l : list A) :
  StronglySorted R l -> forall k, StronglySorted R (firstn k l).
Proof.
  induction 1 as [| x l Hl IH Hx]; intros [| k]; simpl; try constructor.
  - apply IH.
  - apply Forall_forall. intros y Hy. rewrite Forall_forall in Hx.
    apply Hx. rewrite <- (firstn_skipn k l). apply in_or_app. now left.
Qed.

Lemma StronglySorted_seq (s n : nat) : StronglySorted lt (seq s n).
Proof.
  revert s. induction n as [| n IH]; intros s; simpl; constructor.
  - apply IH.
  - apply Forall_forall. intros y Hy. apply in_seq in Hy. lia.
Qed.

Lemma StronglySorted_filter {A : Type} (R : A -> A -> Prop)
  (f : A -> bool) (l : list A) :
  StronglySorted R l -> StronglySorted R (filter f l).
Proof.
  induction 1 as [| x l Hl IH Hx]; simpl; [constructor |].
  destruct (f x); [| assumption]. constructor; [assumption |].
  apply Forall_forall. intros y Hy. apply filter_In in Hy.
  rewrite Forall_forall in Hx. now apply Hx.
Qed.

(** The pairs come in ascending [p1], then ascending [p2], each once. *)
Lemma permutations2_sorted (R : nat) : StronglySorted lex_lt (permutations2 R).
Proof.
  unfold permutations2.
  assert (Hgen : forall l, StronglySorted lt l ->
            StronglySorted lex_lt
              (flat_map (fun p1 =>
                           map (fun p2 => (p1, p2))
                               (filter (fun p2 => negb (p2 =? p1)) (seq 0 R)))
                        l)).
  { induction 1 as [| x l Hl IH Hx]; simpl; [constructor |].
    apply StronglySorted_app_intro.
    - assert (Hin : StronglySorted lt
                      (filter (fun p2 => negb (p2 =? x)) (seq 0 R)))
        by apply StronglySorted_filter, StronglySorted_seq.
      induction Hin as [| y ys Hys IHys Hy]; simpl; constructor.
      + exact IHys.
      + apply Forall_forall. intros b Hb. apply in_map_iff in Hb.
        destruct Hb as (z & <- & Hz). rewrite Forall_forall in Hy.
        right. simpl. split; [reflexivity | now apply Hy].
    - exact IH.
    - intros a b Ha Hb. apply in_map_iff in Ha. destruct Ha as (z & <- & _).
      apply in_flat_map in Hb. destruct Hb as (x' & Hx' & Hb).
      apply in_map_iff in Hb. destruct Hb as (z' & <- & _).
      left. simpl. rewrite Forall_forall in Hx. now apply Hx. }
  apply Hgen, StronglySorted_seq.
Qed.

Lemma lex_lt_irrefl (a : nat * nat) : ~ lex_lt a a.
Proof. unfold lex_lt. lia. Qed.

Lemma lex_lt_asym (a b : nat * nat) : lex_lt a b -> ~ lex_lt b a.
Proof. unfold lex_lt. lia. Qed.

(** The log of a loop whose body records its element when it succeeds and
    nothing when it raises is a prefix of the elements. *)
Lemma for_each_calls_prefix {X St : Type} (body : X -> St -> M X St)
  (xs : list X) :
  (forall x s, match outcome (body x s) with
               | Ok _ => calls (body x s) = [x]
               | Raise _ => calls (body x s) = []
               end) ->
  forall s, exists k, calls (for_each xs body s) = firstn k xs.
Proof.
  intros Hbody. induction xs as [| x xs IH]; intros s; simpl.
  - exists 0. reflexivity.
  - rewrite calls_bind. specialize (Hbody x s).
    destruct (outcome (body x s)) as [s' | e].
    + destruct (IH s') as (k & Hk). exists (S k).
      rewrite Hbody, Hk. reflexivity.
    + exists 0. rewrite Hbody. reflexivity.
Qed.

(** ** Further properties of the degeneracy scorer *)

Section ScorerOrder.

Variable fms : list (list float) -> list (list float) -> bool -> bool -> float.

Lemma body_calls_outcome (modes : option (list Z)) (d : Decomposition)
  (pair : nat * nat) (l : WorstDegeneracy.locals) :
  match outcome (WorstDegeneracy.body fms modes d pair l) with
  | Ok _ => calls (WorstDegeneracy.body fms modes d pair l) = [pair]
  | Raise _ => calls (WorstDegeneracy.body fms modes d pair l) = []
  end.
Proof.
  destruct pair as [p1 p2]. unfold WorstDegeneracy.body, lift, bind, ret, logged.
  destruct (WorstDegeneracy.columns modes p1 d); simpl; [| reflexivity].
  destruct (WorstDegeneracy.columns modes p2 d); simpl; [| reflexivity].
  destruct (_ <? _)%float; reflexivity.
Qed.

Lemma evaluate_calls_prefix (self : WorstDegeneracy.t) (d : Decomposition)
  (fm : ndarray2) :
  getitem (factor_matrices d) 0 = Ok fm ->
  exists k, calls (WorstDegeneracy._evaluate fms self d) =
            firstn k (permutations2 (shape1 fm)).
Proof.
  intros Hfm. unfold WorstDegeneracy._evaluate.
  rewrite calls_bind. unfold lift at 1 2. simpl calls at 1. simpl outcome at 1.
  rewrite Hfm. cbv beta iota zeta. rewrite calls_bind. simpl app at 1.
  destruct (for_each_calls_prefix
              (WorstDegeneracy.body fms (WorstDegeneracy.modes_local self d) d)
              (permutations2 (shape1 fm))
              (body_calls_outcome (WorstDegeneracy.modes_local self d) d)
              {| WorstDegeneracy.min_score := infinity;
                 WorstDegeneracy.worst_p1 := None;
                 WorstDegeneracy.worst_p2 := None |}) as (k & Hk).
  exists k.
  match goal with
  | |- ?a ++ _ = _ =>
      replace a with (firstn k (permutations2 (shape1 fm)))
        by (symmetry; exact Hk)
  end.
  destruct (outcome (for_each _ _ _)) as [l |]; [| apply app_nil_r].
  destruct (WorstDegeneracy.return_permutation self); [| apply app_nil_r].
  unfold lift, bind, ret, read_local.
  destruct (WorstDegeneracy.worst_p1 l), (WorstDegeneracy.worst_p2 l);
    apply app_nil_r.
Qed.

(** X2. Whatever the evaluator and the decomposition, and also when the
    scorer raises, the pairs passed to the metric are an initial segment of
    the ordered pairs of distinct indices below the rank, in ascending [p1]
    and then ascending [p2]: no pair is scored twice, out of order, or
    after a pair that was skipped. *)
Theorem pairs_scored_in_order (self : WorstDegeneracy.t) (d : Decomposition) :
  StronglySorted lex_lt (calls (WorstDegeneracy._evaluate fms self d)) /\
  NoDup (calls (WorstDegeneracy._evaluate fms self d)) /\
  forall fm, getitem (factor_matrices d) 0 = Ok fm ->
    exists k, calls (WorstDegeneracy._evaluate fms self d) =
              firstn k (permutations2 (shape1 fm)).
Proof.
  assert (Hsorted : StronglySorted lex_lt
                      (calls (WorstDegeneracy._evaluate fms self d))).
  { destruct (getitem (factor_matrices d) 0) as [fm | e] eqn:Hfm.
    - destruct (evaluate_calls_prefix self d Hfm) as (k & ->).
      apply StronglySorted_firstn, permutations2_sorted.
    - unfold WorstDegeneracy._evaluate. rewrite calls_bind, Hfm. constructor. }
  split; [exact Hsorted |]. split.
  - induction Hsorted as [| x l Hl IH Hx]; constructor; [| exact IH].
    intros Hin. rewrite Forall_forall in Hx.
    exact (lex_lt_irrefl (Hx x Hin)).
  - intros fm Hfm. now apply evaluate_calls_prefix.
Qed.

(** X3. With an explicit mode subset the metric is never called, and the
    only result the scorer can return is the score plus infinity without a
    permutation, at a rank below 2. *)
Theorem explicit_subset_never_scores (ms : list Z) (flag : bool)
  (d : Decomposition) :
  calls (WorstDegeneracy._evaluate fms (subset_scorer ms flag) d) = [] /\
  forall e,
    outcome (WorstDegeneracy._evaluate fms (subset_scorer ms flag) d) = Ok e ->
    e = {| WorstDegeneracy.worst_degeneracy := infinity;
           WorstDegeneracy.permutation := None |} /\
    flag = false /\
    exists fm, getitem (factor_matrices d) 0 = Ok fm /\ shape1 fm < 2.
Proof.
  destruct (factor_matrices d) as [| fm rest] eqn:Hd.
  - unfold WorstDegeneracy._evaluate. rewrite Hd. simpl.
    split; [reflexivity | discriminate].
  - destruct (le_lt_dec 2 (shape1 fm)) as [HR | HR].
    + rewrite (evaluate_subset fms d ms flag Hd HR). simpl.
      split; [reflexivity | discriminate].
    + assert (Heval :
        WorstDegeneracy._evaluate fms (subset_scorer ms flag) d =
        ([], if flag then Raise NameError
             else Ok {| WorstDegeneracy.worst_degeneracy := infinity;
                        WorstDegeneracy.permutation := None |})).
      { unfold WorstDegeneracy._evaluate. rewrite Hd.
        change (getitem (fm :: rest) 0) with (Ok fm).
        unfold lift at 1. unfold bind at 1.
        rewrite (permutations2_below_2 HR). simpl.
        destruct flag; reflexivity. }
      rewrite Heval. simpl. split; [reflexivity |].
      destruct flag; [discriminate |].
      intros e He. inversion He; subst.
      split; [reflexivity |]. split; [reflexivity |]. exists fm. auto.
Qed.

(** X5. When no pair has a score that compares below plus infinity (every
    score is NaN or plus infinity), the scorer with no mode subset still
    calls the metric on every pair, keeps the initial minimum and no pair:
    it returns plus infinity, and raises [NameError] when the permutation is
    asked for. *)
Theorem no_score_below_infinity (d : Decomposition) (R : nat) (flag : bool) :
  covers_rank d R ->
  (forall pair, In pair (permutations2 R) ->
     (pair_score fms d pair <? infinity)%float = false) ->
  WorstDegeneracy._evaluate fms (default_scorer flag) d =
  (permutations2 R,
   if flag then Raise NameError
   else Ok {| WorstDegeneracy.worst_degeneracy := infinity;
              WorstDegeneracy.permutation := None |}).
Proof.
  intros Hcov Hnone. rewrite (evaluate_all_modes fms flag Hcov).
  assert (Hfold : forall ps,
            (forall pair, In pair ps ->
               (pair_score fms d pair <? infinity)%float = false) ->
            fold_left (update fms d) ps initial = initial).
  { induction ps as [| x ps IH] using rev_ind; intros H; [reflexivity |].
    rewrite fold_left_app, IH
      by (intros; apply H, in_or_app; left; assumption).
    simpl. unfold update. simpl.
    rewrite H by (apply in_or_app; right; left; reflexivity). reflexivity. }
  rewrite (Hfold _ Hnone). destruct flag; reflexivity.
Qed.

(** X6. Without any assumption on the scores: a score returned by the
    scorer with no mode subset is not NaN, no pair has a score that compares
    below it, and it is plus infinity or the score of a pair of distinct
    components. *)
Theorem returned_score_is_lower_bound (d : Decomposition) (R : nat)
  (flag : bool) (e : WorstDegeneracy.evaluation) :
  covers_rank d R ->
  outcome (WorstDegeneracy._evaluate fms (default_scorer flag) d) = Ok e ->
  not_nan (WorstDegeneracy.worst_degeneracy e) /\
  (forall q, In q (permutations2 R) ->
     (pair_score fms d q <? WorstDegeneracy.worst_degeneracy e)%float = false) /\
  (WorstDegeneracy.worst_degeneracy e = infinity \/
   exists pair, In pair (permutations2 R) /\
                WorstDegeneracy.worst_degeneracy e = pair_score fms d pair).
Proof.
  intros Hcov. rewrite (evaluate_all_modes fms flag Hcov). simpl.
  destruct (fold_update_lower_bound fms d (permutations2 R))
    as (Hnan & Hlow & Hkept).
  revert Hnan Hlow Hkept.
  generalize (fold_left (update fms d) (permutations2 R) initial).
  intros l Hnan Hlow Hkept He.
  assert (Hscore : WorstDegeneracy.worst_degeneracy e =
                   WorstDegeneracy.min_score l).
  { unfold returned in He. destruct flag.
    - destruct (WorstDegeneracy.worst_p1 l), (WorstDegeneracy.worst_p2 l);
        try discriminate; inversion He; reflexivity.
    - inversion He; reflexivity. }
  rewrite Hscore. split; [exact Hnan |]. split; [exact Hlow |].
  destruct Hkept as [-> | (pair & Hin & ->)]; [left; reflexivity |].
  right. exists pair. split; [assumption | reflexivity].
Qed.

(** The pair kept by the loop had, when it was reached, a score that
    compared below the minimum kept so far; nothing is assumed of the
    scores. *)
Lemma fold_update_kept (d : Decomposition) (ps : list (nat * nat))
  (p1 p2 : nat) :
  WorstDegeneracy.worst_p1 (fold_left (update fms d) ps initial) = Some p1 ->
  WorstDegeneracy.worst_p2 (fold_left (update fms d) ps initial) = Some p2 ->
  exists before after,
    ps = before ++ (p1, p2) :: after /\
    (pair_score fms d (p1, p2)
     <? WorstDegeneracy.min_score (fold_left (update fms d) before initial))%float
    = true.
Proof.
  induction ps as [| x ps IH] using rev_ind; [discriminate |].
  rewrite fold_left_app. cbn [fold_left]. unfold update at 1 3.
  destruct (pair_score fms d x
            <? WorstDegeneracy.min_score
                 (fold_left (update fms d) ps initial))%float eqn:Hlt.
  - cbn [WorstDegeneracy.worst_p1 WorstDegeneracy.worst_p2].
    intros H1 H2. exists ps, []. destruct x as [a b].
    cbn [fst snd] in H1, H2. inversion H1; inversion H2; subst a b.
    split; [reflexivity | exact Hlt].
  - intros H1 H2. destruct (IH H1 H2) as (before & after & Heq & Hkept).
    exists before, (after ++ [x]). split; [| exact Hkept].
    rewrite Heq, <- app_assoc. reflexivity.
Qed.

(** X7. For a metric that gives a pair and the reversed pair the same score,
    the pair reported with no mode subset is the ascending one, [p1 < p2],
    whatever the scores are, NaN included: the pair is iterated before its
    reverse, and a pair is kept only when its score compares below the
    minimum kept so far, which the equal score of the reverse does not. *)
Theorem symmetric_metric_reports_ascending_pair (d : Decomposition) (R : nat)
  (p1 p2 : nat) (s : float) :
  covers_rank d R ->
  (forall q1 q2, In (q1, q2) (permutations2 R) ->
     pair_score fms d (q1, q2) = pair_score fms d (q2, q1)) ->
  outcome (WorstDegeneracy._evaluate fms (default_scorer true) d) =
    Ok {| WorstDegeneracy.worst_degeneracy := s;
          WorstDegeneracy.permutation := Some (p1, p2) |} ->
  p1 < p2.
Proof.
  intros Hcov Hsym. rewrite (evaluate_all_modes fms true Hcov).
  unfold outcome, returned. cbn [snd]. intros He.
  assert (Hkept :
    WorstDegeneracy.worst_p1
      (fold_left (update fms d) (permutations2 R) initial) = Some p1 /\
    WorstDegeneracy.worst_p2
      (fold_left (update fms d) (permutations2 R) initial) = Some p2).
  { destruct (WorstDegeneracy.worst_p1 _) as [a |];
      [| discriminate].
    destruct (WorstDegeneracy.worst_p2 _) as [b |];
      [| discriminate].
    inversion He. split; reflexivity. }
  destruct Hkept as [H1 H2].
  destruct (fold_update_kept d _ H1 H2) as (before & after & Heq & Hlt).
  assert (Hin : In (p1, p2) (permutations2 R))
    by (rewrite Heq; apply in_or_app; right; left; reflexivity).
  apply In_permutations2 in Hin. destruct Hin as (Hp1 & Hp2 & Hne).
  destruct (lt_dec p1 p2) as [Hasc | Hge]; [assumption | exfalso].
  assert (Hrev : In (p2, p1) (permutations2 R))
    by (apply In_permutations2; lia).
  rewrite Heq in Hrev. apply in_app_or in Hrev.
  destruct Hrev as [Hrev | [Hrev | Hrev]].
  - destruct (fold_update_lower_bound fms d before) as (_ & Hlow & _).
    specialize (Hlow _ Hrev).
    rewrite <- (Hsym p1 p2) in Hlow by (apply In_permutations2; lia).
    congruence.
  - inversion Hrev. lia.
  - pose proof (permutations2_sorted R) as Hsorted. rewrite Heq in Hsorted.
    pose proof (StronglySorted_app_after _ _ _ Hsorted _ Hrev) as Hlex.
    unfold lex_lt in Hlex. simpl in Hlex. lia.
Qed.

End ScorerOrder.

(** *** The further properties on the inputs of the examples *)

Lemma covers_rank_rank_3 : covers_rank rank_3 3.
Proof.
  split; [eexists; eexists; split; reflexivity |].
  repeat constructor.
Qed.

Lemma evaluate_first_minimum_witness :
  exists before pair after,
    permutations2 3 = before ++ pair :: after /\
    outcome (WorstDegeneracy._evaluate metrics._factor_match_score
               (default_scorer true) rank_3) =
      Ok {| WorstDegeneracy.worst_degeneracy :=
              pair_score metrics._factor_match_score rank_3 pair;
            WorstDegeneracy.permutation := Some pair |} /\
    (forall q, In q before ->
       (pair_score metrics._factor_match_score rank_3 pair
        <? pair_score metrics._factor_match_score rank_3 q)%float = true) /\
    (forall q, In q after ->
       (pair_score metrics._factor_match_score rank_3 pair
        <=? pair_score metrics._factor_match_score rank_3 q)%float = true).
Proof.
  apply (@evaluate_first_minimum metrics._factor_match_score rank_3 3 true
           covers_rank_rank_3).
  - lia.
  - apply scores_finite_check. vm_compute. reflexivity.
Defined.

Lemma pairs_scored_in_order_witness :
  exists k,
    calls (WorstDegeneracy._evaluate metrics._factor_match_score
             (default_scorer false) ranks_4_and_3) =
    firstn k (permutations2 4).
Proof.
  exact (proj2 (proj2 (pairs_scored_in_order metrics._factor_match_score
                         (default_scorer false) ranks_4_and_3))
           _ eq_refl).
Defined.

Lemma explicit_subset_never_scores_witness :
  {| WorstDegeneracy.worst_degeneracy := infinity;
     WorstDegeneracy.permutation := None |} =
  {| WorstDegeneracy.worst_degeneracy := infinity;
     WorstDegeneracy.permutation := None |} /\
  false = false /\
  exists fm, getitem (factor_matrices rank_1) 0 = Ok fm /\ shape1 fm < 2.
Proof.
  apply (proj2 (explicit_subset_never_scores metrics._factor_match_score
                  [0%Z] false rank_1)).
  reflexivity.
Defined.

Lemma evaluate_rank_below_2_witness :
  WorstDegeneracy._evaluate metrics._factor_match_score
    (subset_scorer [1%Z] false) rank_1 =
  ([], Ok {| WorstDegeneracy.worst_degeneracy := infinity;
             WorstDegeneracy.permutation := None |}).
Proof.
  apply (@evaluate_rank_below_2 metrics._factor_match_score
           (subset_scorer [1%Z] false) rank_1 _ _ eq_refl).
  simpl. lia.
Defined.

Lemma no_score_below_infinity_witness :
  WorstDegeneracy._evaluate metrics._factor_match_score
    (default_scorer true) zero_columns =
  (permutations2 2, Raise NameError).
Proof.
  apply (@no_score_below_infinity metrics._factor_match_score
           zero_columns 2 true).
  - split; [eexists; eexists; split; reflexivity | repeat constructor].
  - intros pair Hin. simpl in Hin.
    destruct Hin as [<- | [<- | []]]; vm_compute; reflexivity.
Defined.

Lemma returned_score_is_lower_bound_witness :
  not_nan 0%float /\
  (forall q, In q (permutations2 2) ->
     (pair_score metrics._factor_match_score known_input q <? 0)%float = false) /\
  (0%float = infinity \/
   exists pair, In pair (permutations2 2) /\
                0%float = pair_score metrics._factor_match_score known_input pair).
Proof.
  apply (@returned_score_is_lower_bound metrics._factor_match_score
           known_input 2 false
           {| WorstDegeneracy.worst_degeneracy := 0;
              WorstDegeneracy.permutation := None |}).
  - split; [eexists; eexists; split; reflexivity | repeat constructor].
  - vm_compute. reflexivity.
Defined.

Lemma symmetric_metric_reports_ascending_pair_witness : 0 < 2.
Proof.
  apply (@symmetric_metric_reports_ascending_pair metrics._factor_match_score
           rank_3 3 0 2
           (pair_score metrics._factor_match_score rank_3 (0, 2))
           covers_rank_rank_3).
  - intros q1 q2 Hin. simpl in Hin.
    repeat (destruct Hin as [Heq | Hin];
            [inversion Heq; subst; vm_compute; reflexivity |]).
    destruct Hin.
  - vm_compute. reflexivity.
Defined.

(** ** Further properties of the p-value evaluator *)

Lemma SFcompare_refl_nan (x : spec_float) :
  SFcompare x x = None -> x = S754_nan.
Proof.
  destruct x as [s | s | | s m e]; simpl; try discriminate; try reflexivity.
Qed.

Lemma float_nan_spec (x : float) :
  (x =? x)%float = false -> Prim2SF x = S754_nan.
Proof.
  rewrite eqb_spec. unfold SFeqb. intros H. apply SFcompare_refl_nan.
  destruct (SFcompare_refl (Prim2SF x)) as [Hc | Hc]; [exact Hc |].
  rewrite Hc in H. discriminate.
Qed.

Lemma float_ltb_nan_l (x y : float) :
  (x =? x)%float = false -> (x <? y)%float = false.
Proof.
  intros H. rewrite ltb_spec, (float_nan_spec H). reflexivity.
Qed.

Lemma float_ltb_nan_r (x y : float) :
  (y =? y)%float = false -> (x <? y)%float = false.
Proof.
  intros H. rewrite ltb_spec, (float_nan_spec H). unfold SFltb.
  destruct (Prim2SF x); reflexivity.
Qed.

Lemma py_min_from_nan (m : float) (xs : list float) :
  (m =? m)%float = false -> py_min_from m xs = m.
Proof.
  intros Hm. induction xs as [| x xs IH]; simpl; [reflexivity |].
  now rewrite (float_ltb_nan_r x Hm).
Qed.

Lemma py_min_from_numbers (xs : list float) :
  forall m, py_min_from m xs = py_min_from m (numbers xs).
Proof.
  induction xs as [| x xs IH]; intros m; simpl; [reflexivity |].
  destruct (x =? x)%float eqn:Hx; simpl.
  - apply IH.
  - rewrite (float_ltb_nan_l m Hx). apply IH.
Qed.

Lemma numbers_not_nan (xs : list float) : Forall not_nan (numbers xs).
Proof.
  apply Forall_forall. intros x Hx. apply filter_In in Hx. apply Hx.
Qed.

Lemma take_rows_raises (rws : list (list float)) (idx : list nat) (e : exn) :
  take_rows rws idx = Raise e -> e = IndexError.
Proof.
  induction idx as [| i idx IH]; simpl; [discriminate |].
  unfold getitem. destruct (nth_error rws i); simpl.
  - destruct (take_rows rws idx); simpl; [discriminate |].
    intros H. inversion H; subst. now apply IH.
  - intros H. now inversion H.
Qed.

Lemma take_rows_bound (rws : list (list float)) (idx : list nat)
  (g : list (list float)) :
  take_rows rws idx = Ok g -> forall i, In i idx -> i < length rws.
Proof.
  revert g. induction idx as [| j idx IH]; intros g; simpl; [intros _ i [] |].
  unfold getitem. destruct (nth_error rws j) eqn:Hj; simpl; [| discriminate].
  destruct (take_rows rws idx) as [g' |]; simpl; [| discriminate].
  intros _ i [<- | Hi].
  - apply nth_error_Some. congruence.
  - now apply (IH g').
Qed.

Lemma indices_of_In (class_ : Z) (labels : list Z) :
  forall s i, s <= i -> nth_error labels (i - s) = Some class_ ->
              In i (PValue.indices_of class_ s labels).
Proof.
  induction labels as [| c cs IH]; intros s i Hle Hnth; simpl.
  - destruct (i - s); discriminate.
  - destruct (Nat.eq_dec i s) as [-> | Hne].
    + rewrite Nat.sub_diag in Hnth. simpl in Hnth. inversion Hnth; subst.
      rewrite Z.eqb_refl. now left.
    + assert (Hin : In i (PValue.indices_of class_ (S s) cs)).
      { apply IH; [lia |].
        replace (i - s) with (S (i - S s)) in Hnth by lia. exact Hnth. }
      destruct (c =? class_)%Z; [right |]; exact Hin.
Qed.

Lemma snd_combine_firstn {A B : Type} (l : list A) :
  forall l' : list B, length l <= length l' ->
  map snd (combine l l') = firstn (length l) l'.
Proof.
  induction l as [| a l IH]; intros [| b l'] Hlen; simpl in *;
    try reflexivity; try lia.
  rewrite IH by lia. reflexivity.
Qed.

Lemma filter_partition_Permutation {A : Type} (f g : A -> bool) (l : list A) :
  (forall x, In x l -> f x = negb (g x)) ->
  Permutation (filter f l ++ filter g l) l.
Proof.
  induction l as [| x l IH]; intros H; simpl; [constructor |].
  assert (IH' : Permutation (filter f l ++ filter g l) l)
    by (apply IH; intros; apply H; right; assumption).
  rewrite (H x (or_introl eq_refl)). destruct (g x); simpl.
  - apply Permutation_sym, Permutation_cons_app, Permutation_sym, IH'.
  - now constructor.
Qed.

Lemma group_partition (a b : Z) (labels : list Z) (rws : list (list float)) :
  a <> b -> (forall c, In c labels -> c = a \/ c = b) ->
  length labels <= length rws ->
  Permutation (group a labels rws ++ group b labels rws)
              (firstn (length labels) rws).
Proof.
  intros Hab Hlabels Hlen. unfold group.
  rewrite <- map_app, <- (snd_combine_firstn labels rws Hlen).
  apply Permutation_map, filter_partition_Permutation.
  intros [c r] Hin. simpl. apply in_combine_l in Hin.
  destruct (Hlabels c Hin) as [-> | ->].
  - rewrite Z.eqb_refl. apply Z.eqb_neq in Hab. now rewrite Hab.
  - rewrite Z.eqb_refl.
    assert (Hba : (b =? a)%Z = false) by (apply Z.eqb_neq; congruence).
    now rewrite Hba.
Qed.

Lemma group_nonempty (a : Z) (labels : list Z) (rws : list (list float)) :
  In a labels -> length labels <= length rws -> group a labels rws <> [].
Proof.
  revert rws. induction labels as [| c cs IH]; intros [| r rws] Hin Hlen;
    simpl in *; try lia; try contradiction.
  unfold group. simpl. destruct (Z.eqb_spec c a) as [-> | Hne]; simpl.
  - discriminate.
  - destruct Hin as [Heq | Hin]; [congruence |].
    apply (IH rws Hin). lia.
Qed.

Section PValueMore.

Variable ttest_ind :
  list (list float) -> list (list float) -> bool -> list float.
Variable set_iter : list Z -> list Z.

Hypothesis set_iter_NoDup : forall xs, NoDup (set_iter xs).
Hypothesis set_iter_In : forall xs x, In x (set_iter xs) <-> In x xs.

Lemma two_labels (labels : list Z) :
  distinct_count labels = 2 ->
  exists a b, set_iter labels = [a; b] /\ a <> b /\
              forall c, In c labels <-> c = a \/ c = b.
Proof.
  intros Htwo.
  pose proof (length_set_iter set_iter set_iter_NoDup set_iter_In labels)
    as Hlen.
  rewrite Htwo in Hlen.
  destruct (set_iter labels) as [| a [| b [| c rest]]] eqn:Hset;
    try discriminate.
  exists a, b. split; [reflexivity |].
  pose proof (set_iter_NoDup labels) as Hnd. rewrite Hset in Hnd. split.
  - inversion Hnd as [| ? ? Hnotin _]; subst. intros ->. apply Hnotin.
    left; reflexivity.
  - intros c. rewrite <- set_iter_In, Hset. simpl.
    split; [intros [H | [H | []]] | intros [H | H]]; auto.
Qed.

(** X8. With exactly two class labels and a row of the factor matrix for
    every sample, the two groups passed to the test are both non-empty and
    together hold every sample's row exactly once: they are a rearrangement
    of the first [len(classes)] rows of the selected factor matrix. *)
Theorem groups_partition_samples (self : PValue.t) (d : Decomposition)
  (data_reader : PValue.DataReader) (factors : ndarray2) :
  py_getitem (factor_matrices d) (PValue.mode self) = Ok factors ->
  length (PValue.classes data_reader) <> 1 ->
  distinct_count (PValue.classes data_reader) = 2 ->
  length (PValue.classes data_reader) <= shape0 factors ->
  exists g1 g2,
    calls (PValue._evaluate ttest_ind set_iter self d data_reader) =
      [(g1, g2)] /\
    g1 <> [] /\ g2 <> [] /\
    Permutation (g1 ++ g2)
      (firstn (length (PValue.classes data_reader)) (rows factors)).
Proof.
  intros Hmode Hlen Htwo Hrows.
  destruct (two_labels _ Htwo) as (a & b & Hset & Hab & Hlabels).
  rewrite (evaluate_two_classes ttest_ind set_iter self d data_reader
             Hmode Hlen Hset Hrows).
  simpl. eexists; eexists. split; [reflexivity |].
  unfold shape0 in Hrows. split; [| split].
  - apply group_nonempty; [apply Hlabels; now left | assumption].
  - apply group_nonempty; [apply Hlabels; now right | assumption].
  - apply group_partition; [assumption | | assumption].
    intros c Hc. now apply Hlabels.
Qed.

(** X9. [min] keeps its first element unless a later one compares below it,
    and nothing compares below NaN: when the p-value of the first component
    is NaN the evaluator returns NaN, whatever the p-values of the other
    components. *)
Theorem nan_first_p_value_wins (self : PValue.t) (d : Decomposition)
  (data_reader : PValue.DataReader) (factors : ndarray2)
  (g1 g2 : list (list float)) (p : float) (ps : list float) :
  py_getitem (factor_matrices d) (PValue.mode self) = Ok factors ->
  length (PValue.classes data_reader) <> 1 ->
  distinct_count (PValue.classes data_reader) = 2 ->
  length (PValue.classes data_reader) <= shape0 factors ->
  calls (PValue._evaluate ttest_ind set_iter self d data_reader) =
    [(g1, g2)] ->
  ttest_ind g1 g2 false = p :: ps ->
  (p =? p)%float = false ->
  outcome (PValue._evaluate ttest_ind set_iter self d data_reader) = Ok p.
Proof.
  intros Hmode Hlen Htwo Hrows.
  destruct (two_labels _ Htwo) as (a & b & Hset & _ & _).
  rewrite (evaluate_two_classes ttest_ind set_iter self d data_reader
             Hmode Hlen Hset Hrows).
  simpl. intros Hcalls Htest Hnan. inversion Hcalls; subst g1 g2.
  rewrite Htest. simpl. now rewrite py_min_from_nan.
Qed.

(** X10. When the p-value of the first component is a number, NaN p-values
    of the other components are passed over: the evaluator returns a least
    element of the p-values that are numbers. *)
Theorem later_nan_p_values_ignored (self : PValue.t) (d : Decomposition)
  (data_reader : PValue.DataReader) (factors : ndarray2)
  (g1 g2 : list (list float)) (p : float) (ps : list float) :
  py_getitem (factor_matrices d) (PValue.mode self) = Ok factors ->
  length (PValue.classes data_reader) <> 1 ->
  distinct_count (PValue.classes data_reader) = 2 ->
  length (PValue.classes data_reader) <= shape0 factors ->
  calls (PValue._evaluate ttest_ind set_iter self d data_reader) =
    [(g1, g2)] ->
  ttest_ind g1 g2 false = p :: ps ->
  not_nan p ->
  exists m,
    outcome (PValue._evaluate ttest_ind set_iter self d data_reader) = Ok m /\
    least m (numbers (p :: ps)).
Proof.
  intros Hmode Hlen Htwo Hrows.
  destruct (two_labels _ Htwo) as (a & b & Hset & _ & _).
  rewrite (evaluate_two_classes ttest_ind set_iter self d data_reader
             Hmode Hlen Hset Hrows).
  simpl. intros Hcalls Htest Hp. inversion Hcalls; subst g1 g2.
  rewrite Htest. simpl. exists (py_min_from p ps). split; [reflexivity |].
  unfold not_nan in Hp. rewrite Hp, py_min_from_numbers.
  change (p :: numbers ps) with ([p] ++ numbers ps).
  apply py_min_from_least.
  - split; [left; reflexivity |]. intros y [<- | []]. now apply float_leb_refl.
  - repeat constructor. exact Hp.
  - apply numbers_not_nan.
Qed.

(** X11. With exactly two class labels but more samples in the class vector
    than rows in the selected factor matrix, the row selection raises
    [IndexError] and the test is not run. *)
Theorem more_samples_than_rows (self : PValue.t) (d : Decomposition)
  (data_reader : PValue.DataReader) (factors : ndarray2) :
  py_getitem (factor_matrices d) (PValue.mode self) = Ok factors ->
  length (PValue.classes data_reader) <> 1 ->
  distinct_count (PValue.classes data_reader) = 2 ->
  shape0 factors < length (PValue.classes data_reader) ->
  PValue._evaluate ttest_ind set_iter self d data_reader =
  ([], Raise IndexError).
Proof.
  intros Hmode Hlen Htwo Hrows.
  destruct (two_labels _ Htwo) as (a & b & Hset & _ & Hlabels).
  unfold PValue._evaluate.
  rewrite Hmode, (squeeze_vector _ Hlen).
  cbv beta delta [bind lift logged] iota. rewrite Hset. simpl.
  unfold getitem. simpl.
  set (labels := PValue.classes data_reader) in *.
  unfold shape0 in Hrows.
  destruct (nth_error labels (length (rows factors))) as [c |] eqn:Hc;
    [| apply nth_error_None in Hc; lia].
  assert (Hc' : In c labels) by (eapply nth_error_In; eassumption).
  destruct (take_rows (rows factors) (PValue.indices_of a 0 labels))
    as [ga | e] eqn:Ha; simpl.
  - destruct (take_rows (rows factors) (PValue.indices_of b 0 labels))
      as [gb | e] eqn:Hb; simpl.
    + exfalso. apply Hlabels in Hc'. destruct Hc' as [-> | ->].
      * pose proof (take_rows_bound _ _ Ha (length (rows factors))) as Hlt.
        assert (length (rows factors) < length (rows factors)); [| lia].
        apply Hlt, indices_of_In; [lia |]. now rewrite Nat.sub_0_r.
      * pose proof (take_rows_bound _ _ Hb (length (rows factors))) as Hlt.
        assert (length (rows factors) < length (rows factors)); [| lia].
        apply Hlt, indices_of_In; [lia |]. now rewrite Nat.sub_0_r.
    + now rewrite (take_rows_raises _ _ Hb).
  - now rewrite (take_rows_raises _ _ Ha).
Qed.

(** X12. The factor matrix is looked up and the class vector iterated
    before the assertion: a mode that names no factor matrix raises
    [IndexError] whatever the classes, and with a valid mode a class vector
    of one entry, which [squeeze] turns into a zero-dimensional array,
    raises [TypeError]; in both cases no test is run. *)
Theorem failures_before_the_assertion (self : PValue.t) (d : Decomposition)
  (data_reader : PValue.DataReader) :
  let n := Z.of_nat (length (factor_matrices d)) in
  ((PValue.mode self < - n \/ n <= PValue.mode self)%Z ->
   PValue._evaluate ttest_ind set_iter self d data_reader =
   ([], Raise IndexError)) /\
  ((- n <= PValue.mode self < n)%Z ->
   length (PValue.classes data_reader) = 1 ->
   PValue._evaluate ttest_ind set_iter self d data_reader =
   ([], Raise TypeError)).
Proof.
  simpl. split.
  - intros Hout. unfold PValue._evaluate, py_getitem, getitem.
    destruct (Z.leb_spec 0 (PValue.mode self)) as [Hpos | Hneg].
    + destruct (nth_error (factor_matrices d) (Z.to_nat (PValue.mode self)))
        eqn:Hnth; [| reflexivity].
      assert (Z.to_nat (PValue.mode self) < length (factor_matrices d))
        by (apply nth_error_Some; congruence).
      lia.
    + destruct (Z.leb_spec (- Z.of_nat (length (factor_matrices d)))
                  (PValue.mode self)); [lia | reflexivity].
  - intros Hin Hone.
    assert (Hfm : exists factors,
              py_getitem (factor_matrices d) (PValue.mode self) = Ok factors).
    { unfold py_getitem, getitem.
      destruct (Z.leb_spec 0 (PValue.mode self)) as [Hpos | Hneg].
      - destruct (nth_error (factor_matrices d) (Z.to_nat (PValue.mode self)))
          eqn:Hnth; [eexists; reflexivity |].
        apply nth_error_None in Hnth. lia.
      - destruct (Z.leb_spec (- Z.of_nat (length (factor_matrices d)))
                    (PValue.mode self)); [| lia].
        destruct (nth_error (factor_matrices d)
                    (Z.to_nat (Z.of_nat (length (factor_matrices d))
                               + PValue.mode self))) eqn:Hnth;
          [eexists; reflexivity |].
        apply nth_error_None in Hnth. lia. }
    destruct Hfm as (factors & Hfm). unfold PValue._evaluate. rewrite Hfm.
    destruct (PValue.classes data_reader) as [| c [| c' cs]];
      simpl in Hone; try discriminate.
    reflexivity.
Qed.

End PValueMore.

(** *** The further properties on examples *)

Lemma distinct_NoDup (xs : list Z) : NoDup (distinct xs).
Proof. apply NoDup_nodup. Qed.

Lemma distinct_In (xs : list Z) (x : Z) : In x (distinct xs) <-> In x xs.
Proof. apply nodup_In. Qed.

Lemma groups_partition_samples_witness :
  exists g1 g2,
    calls (PValue._evaluate recorded_ttest distinct {| PValue.mode := 0 |}
             four_samples {| PValue.classes := [1; 2; 2; 1]%Z |}) =
      [(g1, g2)] /\
    g1 <> [] /\ g2 <> [] /\
    Permutation (g1 ++ g2)
      (firstn 4 (rows (array 2 [[1; 2]; [3; 4]; [5; 6]; [7; 8]]%float))).
Proof.
  assert (Hlen : length [1; 2; 2; 1]%Z <> 1) by (simpl; lia).
  apply (@groups_partition_samples recorded_ttest distinct
           distinct_NoDup distinct_In {| PValue.mode := 0 |} four_samples
           {| PValue.classes := [1; 2; 2; 1]%Z |} _ eq_refl Hlen).
  - vm_compute. reflexivity.
  - unfold shape0. simpl. lia.
Defined.

Lemma nan_first_p_value_wins_witness :
  outcome (PValue._evaluate nan_first_ttest distinct {| PValue.mode := 0 |}
             four_samples {| PValue.classes := [1; 2; 2; 1]%Z |}) = Ok nan.
Proof.
  assert (Hlen : length [1; 2; 2; 1]%Z <> 1) by (simpl; lia).
  apply (@nan_first_p_value_wins nan_first_ttest distinct
           distinct_NoDup distinct_In {| PValue.mode := 0 |} four_samples
           {| PValue.classes := [1; 2; 2; 1]%Z |} _
           [[3; 4]; [5; 6]]%float [[1; 2]; [7; 8]]%float nan [0.5%float]
           eq_refl Hlen).
  - vm_compute. reflexivity.
  - unfold shape0. simpl. lia.
  - vm_compute. reflexivity.
  - reflexivity.
  - reflexivity.
Defined.

Lemma later_nan_p_values_ignored_witness :
  exists m,
    outcome (PValue._evaluate nan_later_ttest distinct {| PValue.mode := 0 |}
               four_samples {| PValue.classes := [1; 2; 2; 1]%Z |}) = Ok m /\
    least m (numbers [0.5; nan; 0.25]%float).
Proof.
  assert (Hlen : length [1; 2; 2; 1]%Z <> 1) by (simpl; lia).
  apply (@later_nan_p_values_ignored nan_later_ttest distinct
           distinct_NoDup distinct_In {| PValue.mode := 0 |} four_samples
           {| PValue.classes := [1; 2; 2; 1]%Z |} _
           [[3; 4]; [5; 6]]%float [[1; 2]; [7; 8]]%float
           0.5%float [nan; 0.25%float] eq_refl Hlen).
  - vm_compute. reflexivity.
  - unfold shape0. simpl. lia.
  - vm_compute. reflexivity.
  - reflexivity.
  - reflexivity.
Defined.

Lemma more_samples_than_rows_witness :
  PValue._evaluate recorded_ttest distinct {| PValue.mode := 0 |} known_input
    {| PValue.classes := [1; 2; 2; 1]%Z |} = ([], Raise IndexError).
Proof.
  assert (Hlen : length [1; 2; 2; 1]%Z <> 1) by (simpl; lia).
  apply (@more_samples_than_rows recorded_ttest distinct
           distinct_NoDup distinct_In {| PValue.mode := 0 |} known_input
           {| PValue.classes := [1; 2; 2; 1]%Z |} _ eq_refl Hlen).
  - vm_compute. reflexivity.
  - unfold shape0. simpl. lia.
Defined.

Lemma failures_before_the_assertion_witness :
  PValue._evaluate recorded_ttest distinct {| PValue.mode := -3 |} known_input
    {| PValue.classes := [1; 2; 2; 1]%Z |} = ([], Raise IndexError) /\
  PValue._evaluate recorded_ttest distinct {| PValue.mode := -1 |} known_input
    {| PValue.classes := [7]%Z |} = ([], Raise TypeError).
Proof.
  split.
  - apply (proj1 (failures_before_the_assertion recorded_ttest distinct
                    {| PValue.mode := -3 |} known_input
                    {| PValue.classes := [1; 2; 2; 1]%Z |})).
    simpl. lia.
  - apply (proj2 (failures_before_the_assertion recorded_ttest distinct
                    {| PValue.mode := -1 |} known_input
                    {| PValue.classes := [7]%Z |})).
    + simpl. lia.
    + reflexivity.
Defined.

(** ** Properties of the visualisers *)

(** *** Runs of plotting code *)

Lemma vbind_run {St A B : Type} (m : V St A) (k : A -> V St B) (s : St) :
  vbind m k s =
  match answered (m s) with
  | Return a =>
      (state_after (k a (state_after (m s))),
       (plotted (m s) ++ plotted (k a (state_after (m s))),
        answered (k a (state_after (m s)))))
  | Throw e => (state_after (m s), (plotted (m s), Throw e))
  end.
Proof.
  unfold vbind, answered, plotted, state_after.
  destruct (m s) as [s' [l [a | e]]]; simpl; [| reflexivity].
  destruct (k a s') as [s'' [l' r]]; reflexivity.
Qed.

Lemma run_eta {St A : Type} (r : St * (list plt.call * answer A)) :
  r = (state_after r, (plotted r, answered r)).
Proof. destruct r as [s [l a]]; reflexivity. Qed.

(** *** [np.unique] and the dictionary of class ids *)

Lemma insert_unique_In (x y : Z) (l : list Z) :
  In y (insert_unique x l) <-> y = x \/ In y l.
Proof.
  induction l as [| z l IH]; simpl.
  - intuition congruence.
  - destruct (Z.ltb_spec x z); simpl; [intuition congruence |].
    destruct (Z.eqb_spec x z); simpl; [subst; intuition congruence |].
    rewrite IH. intuition congruence.
Qed.

Lemma insert_unique_sorted (x : Z) (l : list Z) :
  StronglySorted Z.lt l -> StronglySorted Z.lt (insert_unique x l).
Proof.
  induction 1 as [| z l Hl IH Hz]; simpl.
  - repeat constructor.
  - destruct (Z.ltb_spec x z).
    + constructor; [constructor; assumption |].
      constructor; [assumption |].
      apply Forall_forall. intros y Hy. rewrite Forall_forall in Hz.
      specialize (Hz y Hy). lia.
    + destruct (Z.eqb_spec x z); [constructor; assumption |].
      constructor; [assumption |].
      apply Forall_forall. intros y Hy. apply insert_unique_In in Hy.
      rewrite Forall_forall in Hz. destruct Hy as [-> | Hy]; [lia | auto].
Qed.

Lemma np_unique_In (xs : list Z) (x : Z) : In x (np_unique xs) <-> In x xs.
Proof.
  induction xs as [| y xs IH]; simpl; [tauto |].
  rewrite insert_unique_In, IH. intuition congruence.
Qed.

Lemma np_unique_sorted (xs : list Z) : StronglySorted Z.lt (np_unique xs).
Proof.
  induction xs as [| y xs IH]; simpl; [constructor |].
  now apply insert_unique_sorted.
Qed.

Lemma np_unique_NoDup (xs : list Z) : NoDup (np_unique xs).
Proof.
  pose proof (np_unique_sorted xs) as H.
  induction H as [| z l Hl IH Hz]; constructor; [| assumption].
  intros Hin. rewrite Forall_forall in Hz. specialize (Hz z Hin). lia.
Qed.

Lemma length_np_unique (xs : list Z) :
  length (np_unique xs) = distinct_count xs.
Proof.
  unfold distinct_count. apply Permutation_length, NoDup_Permutation.
  - apply np_unique_NoDup.
  - apply NoDup_nodup.
  - intros x. rewrite np_unique_In, nodup_In. tauto.
Qed.

Lemma dict_get_find {St B : Type} (d : list (Z * B)) (k : Z) (s : St) :
  dict_get d k s =
  (s, ([], match dict_find d k with
           | Some v => Return v
           | None => Throw KeyError
           end)).
Proof.
  induction d as [| [k' v] d IH]; simpl; [reflexivity |].
  destruct (k =? k')%Z; [reflexivity | exact IH].
Qed.

Lemma dict_find_set {B : Type} (d : list (Z * B)) (k k' : Z) (v : B) :
  dict_find (dict_set k v d) k' =
  if (k' =? k)%Z then Some v else dict_find d k'.
Proof.
  induction d as [| [k0 v0] d IH]; simpl.
  - reflexivity.
  - destruct (Z.eqb_spec k k0) as [-> | Hne]; simpl.
    + destruct (k' =? k0)%Z; reflexivity.
    + rewrite IH. destruct (Z.eqb_spec k' k0) as [-> | Hne'];
        [| reflexivity].
      destruct (Z.eqb_spec k0 k); [congruence | reflexivity].
Qed.

Lemma class_ids_other (l : list Z) (c : Z) :
  ~ In c l ->
  forall i0 d0, dict_find (class_ids l i0 d0) c = dict_find d0 c.
Proof.
  unfold class_ids. induction l as [| x l IH]; intros Hnot i0 d0; simpl;
    [reflexivity |].
  rewrite IH by (intros H; apply Hnot; right; exact H).
  rewrite dict_find_set.
  destruct (Z.eqb_spec c x) as [-> | _]; [| reflexivity].
  exfalso. apply Hnot. left. reflexivity.
Qed.

Lemma class_ids_index (l : list Z) (c : Z) :
  NoDup l -> In c l ->
  forall i0 d0,
    dict_find (class_ids l i0 d0) c = Some (Z.of_nat (i0 + index_of c l)).
Proof.
  induction l as [| x l IH]; intros Hnd Hin i0 d0; [destruct Hin |].
  inversion Hnd as [| ? ? Hx Hnd']; subst. simpl.
  destruct (Z.eqb_spec c x) as [-> | Hne].
  - change (dict_find (class_ids l (S i0)
                         (dict_set x (Z.of_nat i0) d0)) x
            = Some (Z.of_nat (i0 + 0))).
    rewrite (class_ids_other l x Hx), dict_find_set, Z.eqb_refl.
    now rewrite Nat.add_0_r.
  - destruct Hin as [Heq | Hin]; [congruence |].
    change (dict_find (class_ids l (S i0)
                         (dict_set x (Z.of_nat i0) d0)) c
            = Some (Z.of_nat (i0 + S (index_of c l)))).
    rewrite (IH Hnd' Hin). f_equal. lia.
Qed.

Lemma index_of_nth (l : list Z) (c : Z) :
  In c l -> nth_error l (index_of c l) = Some c.
Proof.
  induction l as [| x l IH]; intros Hin; [destruct Hin |]. simpl.
  destruct (Z.eqb_spec c x) as [-> | Hne]; [reflexivity |].
  destruct Hin as [Heq | Hin]; [congruence | now apply IH].
Qed.

Lemma index_of_inj (l : list Z) (c c' : Z) :
  In c l -> In c' l -> index_of c l = index_of c' l -> c = c'.
Proof.
  intros Hc Hc' Heq. apply index_of_nth in Hc. apply index_of_nth in Hc'.
  rewrite Heq in Hc. congruence.
Qed.

Lemma vmap_dict_get {St : Type} (d : list (Z * Z)) (f : Z -> Z)
  (cs : list Z) (s : St) :
  (forall c, In c cs -> dict_find d c = Some (f c)) ->
  vmap (dict_get d) cs s = (s, ([], Return (map f cs))).
Proof.
  induction cs as [| c cs IH]; intros H; simpl; [reflexivity |].
  unfold vbind at 1. rewrite dict_get_find, (H c (or_introl eq_refl)).
  unfold vbind at 1. rewrite IH by (intros; apply H; right; assumption).
  reflexivity.
Qed.

Lemma np_diff_cons2 (a b : Z) (ids : list Z) :
  np_diff (a :: b :: ids) = (b - a)%Z :: np_diff (b :: ids).
Proof. reflexivity. Qed.

Lemma str_dict_get_find {St B : Type} (d : list (string * B)) (k : string)
  (s : St) :
  str_dict_get d k s =
  (s, ([], match str_dict_find d k with
           | Some v => Return v
           | None => Throw KeyError
           end)).
Proof.
  induction d as [| [k' v] d IH]; simpl; [reflexivity |].
  destruct (String.eqb k k'); [reflexivity | exact IH].
Qed.

(** *** The class line plotter *)

Lemma changes_from_spec (cs : list Z) :
  forall i0 i,
    In i (changes_from i0 cs) <->
    i0 <= i /\
    exists x y, nth_error cs (i - i0) = Some x /\
                nth_error cs (S (i - i0)) = Some y /\ x <> y.
Proof.
  induction cs as [| x cs IH]; intros i0 i.
  - simpl. split; [intros [] |]. intros (_ & a & b & H & _).
    destruct (i - i0); discriminate.
  - destruct cs as [| y cs'].
    + simpl. split; [intros [] |]. intros (_ & a & b & _ & H & _).
      destruct (i - i0); discriminate.
    + assert (Hrec : In i (changes_from (S i0) (y :: cs')) <->
                i0 < i /\
                exists a b, nth_error (x :: y :: cs') (i - i0) = Some a /\
                            nth_error (x :: y :: cs') (S (i - i0)) = Some b /\
                            a <> b).
      { rewrite IH. split.
        - intros (Hle & a & b & Ha & Hb & Hab). split; [lia |].
          exists a, b. replace (i - i0) with (S (i - S i0)) by lia.
          simpl. auto.
        - intros (Hlt & a & b & Ha & Hb & Hab). split; [lia |].
          exists a, b. replace (i - i0) with (S (i - S i0)) in Ha, Hb by lia.
          simpl in Ha, Hb. auto. }
      change (changes_from i0 (x :: y :: cs')) with
        (if (x =? y)%Z then changes_from (S i0) (y :: cs')
         else i0 :: changes_from (S i0) (y :: cs')).
      destruct (Z.eqb_spec x y) as [Heq | Hne].
      * rewrite Hrec. split.
        -- intros (Hlt & H). split; [lia | exact H].
        -- intros (Hle & a & b & Ha & Hb & Hab).
           destruct (Nat.eq_dec i i0) as [-> | Hi].
           ++ rewrite Nat.sub_diag in Ha, Hb. simpl in Ha, Hb. congruence.
           ++ split; [lia |]. exists a, b. auto.
      * simpl. rewrite Hrec. split.
        -- intros [<- | (Hlt & H)].
           ++ split; [lia |]. exists x, y. rewrite Nat.sub_diag. auto.
           ++ split; [lia | exact H].
        -- intros (Hle & H). destruct (Nat.eq_dec i i0) as [-> | Hi];
             [now left | right]. split; [lia | exact H].
Qed.

Lemma separator_run (ylim : float * float) (i : nat) (di : Z)
  (s : ClassLinePlotter.t) :
  ClassLinePlotter.separator ylim (i, di) s =
  (s, ((if (di =? 0)%Z then [] else [red_line ylim i]), Return tt)).
Proof.
  unfold ClassLinePlotter.separator. simpl.
  destruct (di =? 0)%Z; reflexivity.
Qed.

Lemma separators_run (ylim : float * float) (f : Z -> Z) (cs : list Z) :
  (forall c c', In c cs -> In c' cs -> f c = f c' -> c = c') ->
  forall i0 (s : ClassLinePlotter.t),
    vfor (enumerate_from i0 (np_diff (map f cs)))
         (ClassLinePlotter.separator ylim) s =
    (s, (map (red_line ylim) (changes_from i0 cs), Return tt)).
Proof.
  induction cs as [| x cs IH]; intros Hinj i0 s; [reflexivity |].
  destruct cs as [| y cs']; [reflexivity |].
  assert (IH' : forall s',
            vfor (enumerate_from (S i0) (np_diff (map f (y :: cs'))))
                 (ClassLinePlotter.separator ylim) s' =
            (s', (map (red_line ylim) (changes_from (S i0) (y :: cs')),
                  Return tt))).
  { intros s'. apply IH. intros c c' Hc Hc'. apply Hinj; right; assumption. }
  change (map f (x :: y :: cs')) with (f x :: f y :: map f cs').
  rewrite np_diff_cons2.
  change (f y :: map f cs') with (map f (y :: cs')).
  change (changes_from i0 (x :: y :: cs')) with
    (if (x =? y)%Z then changes_from (S i0) (y :: cs')
     else i0 :: changes_from (S i0) (y :: cs')).
  change (vfor (enumerate_from i0 ((f y - f x)%Z :: np_diff (map f (y :: cs'))))
               (ClassLinePlotter.separator ylim) s)
    with (vbind (ClassLinePlotter.separator ylim (i0, (f y - f x)%Z))
                (fun _ => vfor (enumerate_from (S i0)
                                  (np_diff (map f (y :: cs'))))
                               (ClassLinePlotter.separator ylim)) s).
  rewrite vbind_run, separator_run.
  unfold answered, plotted, state_after. cbn [fst snd]. rewrite IH'.
  cbn [fst snd].
  destruct (Z.eqb_spec x y) as [-> | Hne].
  - rewrite Z.sub_diag. reflexivity.
  - destruct (Z.eqb_spec (f y - f x) 0) as [Hzero | _]; [| reflexivity].
    exfalso. apply Hne. apply Hinj; [left | right; left |]; auto. lia.
Qed.

(** X13. When the mode names a factor matrix and a class dictionary, the
    class name is a key, and the class vector does not hold a single
    entry: the class line plotter draws the factor matrix, then one red
    line at [i + 0.5] for exactly the positions [i] where sample [i] and
    sample [i + 1] are in different classes, in ascending order, and
    restores the y-limits; it leaves the plotter as it was. *)
Theorem class_lines_at_class_changes
  (get_ylim : list (list float) -> float * float)
  (self : ClassLinePlotter.t) (factor_matrices : list ndarray2)
  (data_reader : PlotDataReader) (factor : ndarray2)
  (by_name : list (string * list Z)) (entry : list Z) :
  py_getitem factor_matrices (ClassLinePlotter.mode self) = Ok factor ->
  py_getitem (plot_classes data_reader) (ClassLinePlotter.mode self) =
    Ok by_name ->
  str_dict_find by_name (ClassLinePlotter.class_name self) = Some entry ->
  length entry <> 1 ->
  let ylim := get_ylim (rows factor) in
  ClassLinePlotter._visualise get_ylim factor_matrices data_reader self =
    (self,
     ([plt.figure (ClassLinePlotter.figsize self); plt.add_subplot 1 1 1;
       plt.plot (rows factor)]
      ++ map (red_line ylim) (changes_from 0 entry)
      ++ [plt.set_ylim (fst ylim) (snd ylim)],
      Return tt)) /\
  forall i, In i (changes_from 0 entry) <->
            exists x y, nth_error entry i = Some x /\
                        nth_error entry (S i) = Some y /\ x <> y.
Proof.
  intros Hfactor Hnames Hentry Hlen ylim. split.
  - unfold ClassLinePlotter._visualise.
    assert (Hsq : PValue.squeeze entry = PValue.Array1 entry)
      by (destruct entry as [| c [| c' cs]]; simpl in *; congruence).
    assert (Hids : forall s : ClassLinePlotter.t,
              vmap (dict_get (class_ids (np_unique entry) 0 [])) entry s =
              (s, ([], Return (map (fun c =>
                                      Z.of_nat (index_of c (np_unique entry)))
                                   entry)))).
    { intros s. apply vmap_dict_get. intros c Hc.
      rewrite class_ids_index;
        [reflexivity | apply np_unique_NoDup | now apply np_unique_In]. }
    assert (Hinj : forall c c', In c entry -> In c' entry ->
              Z.of_nat (index_of c (np_unique entry)) =
              Z.of_nat (index_of c' (np_unique entry)) -> c = c').
    { intros c c' Hc Hc' Heq.
      apply (index_of_inj (np_unique entry));
        [now apply np_unique_In | now apply np_unique_In | lia]. }
    cbv beta iota zeta delta [vbind vget emit].
    rewrite Hfactor. cbv beta iota zeta delta [builtin vret].
    rewrite Hnames. cbv beta iota zeta delta [builtin vret].
    rewrite str_dict_get_find, Hentry. cbv beta iota zeta.
    rewrite Hsq.
    cbv beta iota zeta delta [PValue.iterate np_unique_array builtin vret].
    rewrite Hids. cbv beta iota zeta.
    rewrite (separators_run _ _ entry Hinj). reflexivity.
  - intros i. rewrite changes_from_spec. rewrite Nat.sub_0_r.
    split; [intros (_ & H); exact H | intros H; split; [lia | exact H]].
Qed.

(** *** Methods that leave the attributes alone *)

Lemma keeps_state_vret {St A : Type} (a : A) : keeps_state (@vret St A a).
Proof. intros s. reflexivity. Qed.

Lemma keeps_state_vraise {St A : Type} (e : pyexn) :
  keeps_state (@vraise St A e).
Proof. intros s. reflexivity. Qed.

Lemma keeps_state_emit {St : Type} (c : plt.call) : keeps_state (@emit St c).
Proof. intros s. reflexivity. Qed.

Lemma keeps_state_builtin {St A : Type} (r : result A) :
  keeps_state (@builtin St A r).
Proof. intros s. destruct r; reflexivity. Qed.

Lemma keeps_state_vbind {St A B : Type} (m : V St A) (k : A -> V St B) :
  keeps_state m -> (forall a, keeps_state (k a)) -> keeps_state (vbind m k).
Proof.
  intros Hm Hk s. rewrite vbind_run.
  destruct (answered (m s)) as [a | e].
  - change (state_after (k a (state_after (m s))) = s). now rewrite Hk, Hm.
  - change (state_after (m s) = s). apply Hm.
Qed.

Lemma keeps_state_vfor {St X : Type} (xs : list X) (body : X -> V St unit) :
  (forall x, keeps_state (body x)) -> keeps_state (vfor xs body).
Proof.
  intros Hbody. induction xs as [| x xs IH]; simpl.
  - apply keeps_state_vret.
  - apply keeps_state_vbind; [apply Hbody | intros _; exact IH].
Qed.

Ltac keeps :=
  repeat first
    [ apply keeps_state_vret | apply keeps_state_vraise
    | apply keeps_state_emit | apply keeps_state_builtin
    | apply keeps_state_vfor; intros
    | apply keeps_state_vbind; [| intros]
    | match goal with
      | |- keeps_state (match ?x with _ => _ end) => destruct x
      | |- keeps_state (if ?b then _ else _) => destruct b
      end ].

(** A loop whose body leaves the attributes alone returns exactly when
    every iteration returns. *)
Lemma vfor_returns {St X : Type} (xs : list X) (body : X -> V St unit)
  (s : St) :
  (forall x, keeps_state (body x)) ->
  (answered (vfor xs body s) = Return tt <->
   forall x, In x xs -> answered (body x s) = Return tt).
Proof.
  intros Hkeep. induction xs as [| x xs IH]; simpl.
  - split; [intros _ y [] | reflexivity].
  - rewrite vbind_run. rewrite (Hkeep x s).
    destruct (answered (body x s)) as [[] | e] eqn:Hx;
      unfold answered in *; simpl.
    + rewrite IH. split.
      * intros H y [<- | Hy]; [exact Hx | now apply H].
      * intros H y Hy. apply H. now right.
    + split; [discriminate |]. intros H.
      specialize (H x (or_introl eq_refl)). congruence.
Qed.

(** The exceptions of a loop are those of its body. *)
Lemma vfor_throws {St X : Type} (xs : list X) (body : X -> V St unit)
  (P : pyexn -> Prop) :
  (forall x s e, answered (body x s) = Throw e -> P e) ->
  forall s e, answered (vfor xs body s) = Throw e -> P e.
Proof.
  intros Hbody. induction xs as [| x xs IH]; intros s e; simpl;
    [discriminate |].
  rewrite vbind_run.
  destruct (answered (body x s)) as [[] | e'] eqn:Hx;
    unfold answered in *; simpl.
  - apply IH.
  - intros H. inversion H; subst. eapply Hbody. exact Hx.
Qed.

Lemma py_getitem_in_range {A : Type} (xs : list A) (i : Z) :
  (- Z.of_nat (length xs) <= i < Z.of_nat (length xs))%Z ->
  exists a, py_getitem xs i = Ok a.
Proof.
  intros Hin. unfold py_getitem, getitem.
  destruct (Z.leb_spec 0 i) as [Hpos | Hneg].
  - destruct (nth_error xs (Z.to_nat i)) eqn:Hnth; [eexists; reflexivity |].
    apply nth_error_None in Hnth. lia.
  - destruct (Z.leb_spec (- Z.of_nat (length xs)) i); [| lia].
    destruct (nth_error xs (Z.to_nat (Z.of_nat (length xs) + i))) eqn:Hnth;
      [eexists; reflexivity |].
    apply nth_error_None in Hnth. lia.
Qed.

Lemma py_getitem_out_of_range {A : Type} (xs : list A) (i : Z) :
  (i < - Z.of_nat (length xs) \/ Z.of_nat (length xs) <= i)%Z ->
  py_getitem xs i = Raise IndexError.
Proof.
  intros Hout. unfold py_getitem, getitem.
  destruct (Z.leb_spec 0 i) as [Hpos | Hneg].
  - destruct (nth_error xs (Z.to_nat i)) eqn:Hnth; [| reflexivity].
    assert (Z.to_nat i < length xs) by (apply nth_error_Some; congruence).
    lia.
  - destruct (Z.leb_spec (- Z.of_nat (length xs)) i); [lia | reflexivity].
Qed.

Lemma py_getitem_cases {A : Type} (xs : list A) (i : Z) :
  ((- Z.of_nat (length xs) <= i < Z.of_nat (length xs))%Z /\
   exists a, py_getitem xs i = Ok a) \/
  ((i < - Z.of_nat (length xs) \/ Z.of_nat (length xs) <= i)%Z /\
   py_getitem xs i = Raise IndexError).
Proof.
  destruct (Z_lt_le_dec i (- Z.of_nat (length xs))) as [Hlo | Hlo].
  - right. split; [lia |]. apply py_getitem_out_of_range. lia.
  - destruct (Z_lt_le_dec i (Z.of_nat (length xs))) as [Hhi | Hhi].
    + left. split; [lia |]. apply py_getitem_in_range. lia.
    + right. split; [lia |]. apply py_getitem_out_of_range. lia.
Qed.

(** *** The single component line plotter *)

Lemma single_component_subplot_keeps (normalised : ndarray2 -> ndarray2)
  (self : SingleComponentLinePlotter.t) (data_reader : PlotDataReader)
  (factor : ndarray2) (rank r : nat) :
  keeps_state (SingleComponentLinePlotter.subplot self data_reader factor
                 rank r).
Proof. unfold SingleComponentLinePlotter.subplot. keeps. Qed.

Lemma single_component_run (normalised : ndarray2 -> ndarray2)
  (self : SingleComponentLinePlotter.t) (factor_matrices : list ndarray2)
  (data_reader : PlotDataReader) (factor : ndarray2) :
  py_getitem factor_matrices (SingleComponentLinePlotter.mode self) =
    Ok factor ->
  state_after (SingleComponentLinePlotter._visualise normalised
                 factor_matrices data_reader self) =
    {| SingleComponentLinePlotter.figsize :=
         ((fst (SingleComponentLinePlotter.figsize self)
           * float_of_nat (shape1 factor))%float,
          snd (SingleComponentLinePlotter.figsize self));
       SingleComponentLinePlotter.mode :=
         SingleComponentLinePlotter.mode self;
       SingleComponentLinePlotter.normalise :=
         SingleComponentLinePlotter.normalise self;
       SingleComponentLinePlotter.label :=
         SingleComponentLinePlotter.label self |} /\
  hd_error (plotted (SingleComponentLinePlotter._visualise normalised
                       factor_matrices data_reader self)) =
    Some (plt.figure (SingleComponentLinePlotter.figsize self)).
Proof.
  intros Hfactor. unfold SingleComponentLinePlotter._visualise.
  cbv beta iota zeta delta [vbind vget emit vput].
  rewrite Hfactor. cbv beta iota zeta delta [builtin vret].
  match goal with
  | |- context [vfor ?xs ?body ?s] =>
      pose proof (keeps_state_vfor xs body
                    (fun x => single_component_subplot_keeps normalised
                                self data_reader _ _ x) s) as Hkeep;
      destruct (vfor xs body s) as [s' [l r]]
  end.
  unfold state_after in Hkeep. simpl in Hkeep. subst s'.
  split; reflexivity.
Qed.

(** X14. When the mode names a factor matrix, the single component line
    plotter creates its figure with the size it holds and then multiplies
    the width it holds by the rank: after [k] calls on the same plotter the
    width held is the initial width multiplied [k] times by the rank, and
    the next call opens its figure with that size.  The first call opens at
    the initial size and every later call makes a figure [rank] times as
    wide as the call before; the height stays the same. *)
Theorem figure_widens_with_every_call (normalised : ndarray2 -> ndarray2)
  (self : SingleComponentLinePlotter.t) (factor_matrices : list ndarray2)
  (data_reader : PlotDataReader) (factor : ndarray2) :
  py_getitem factor_matrices (SingleComponentLinePlotter.mode self) =
    Ok factor ->
  let call := SingleComponentLinePlotter._visualise normalised
                factor_matrices data_reader in
  forall k,
    let self_k := Nat.iter k (fun s => state_after (call s)) self in
    SingleComponentLinePlotter.figsize self_k =
      (Nat.iter k (fun w => (w * float_of_nat (shape1 factor))%float)
                (fst (SingleComponentLinePlotter.figsize self)),
       snd (SingleComponentLinePlotter.figsize self)) /\
    hd_error (plotted (call self_k)) =
      Some (plt.figure (SingleComponentLinePlotter.figsize self_k)).
Proof.
  intros Hfactor call k. simpl.
  assert (Hk : SingleComponentLinePlotter.mode
                 (Nat.iter k (fun s => state_after (call s)) self) =
               SingleComponentLinePlotter.mode self /\
               SingleComponentLinePlotter.figsize
                 (Nat.iter k (fun s => state_after (call s)) self) =
               (Nat.iter k (fun w => (w * float_of_nat (shape1 factor))%float)
                         (fst (SingleComponentLinePlotter.figsize self)),
                snd (SingleComponentLinePlotter.figsize self))).
  { induction k as [| k [IHmode IHsize]]; simpl.
    - split; [reflexivity |]. now destruct (SingleComponentLinePlotter.figsize self).
    - rewrite <- IHmode in Hfactor.
      destruct (single_component_run normalised _ factor_matrices data_reader
                  Hfactor) as [Hstate _].
      unfold call at 1 3. rewrite Hstate. simpl. rewrite IHsize. simpl.
      split; [exact IHmode | reflexivity]. }
  destruct Hk as [Hmode Hsize]. split; [exact Hsize |].
  rewrite <- Hmode in Hfactor.
  apply (single_component_run normalised _ factor_matrices data_reader
           Hfactor).
Qed.

(** *** The factor scatter plotter *)

(** X15. The factor scatter plotter reads the second of the distinct
    classes before it plots: with fewer than two distinct classes it raises
    [IndexError] once the figure is created and before any subplot is
    added, and the width it holds has already been multiplied by the
    rank. *)
Theorem scatter_needs_two_classes (normalised : ndarray2 -> ndarray2)
  (np_min np_max : ndarray2 -> result float)
  (self : FactorScatterPlotter.t) (factor_matrices : list ndarray2)
  (data_reader : PlotDataReader) (factor : ndarray2)
  (by_name : list (string * list Z)) (entry : list Z) :
  py_getitem factor_matrices (FactorScatterPlotter.mode self) = Ok factor ->
  py_getitem (plot_classes data_reader) (FactorScatterPlotter.mode self) =
    Ok by_name ->
  str_dict_find by_name (FactorScatterPlotter.class_name self) = Some entry ->
  distinct_count entry < 2 ->
  FactorScatterPlotter._visualise normalised np_min np_max factor_matrices
    data_reader self =
  ({| FactorScatterPlotter.figsize :=
        ((fst (FactorScatterPlotter.figsize self)
          * float_of_nat (shape1 factor))%float,
         snd (FactorScatterPlotter.figsize self));
      FactorScatterPlotter.mode := FactorScatterPlotter.mode self;
      FactorScatterPlotter.normalise := FactorScatterPlotter.normalise self;
      FactorScatterPlotter.label := FactorScatterPlotter.label self;
      FactorScatterPlotter.legend := FactorScatterPlotter.legend self;
      FactorScatterPlotter.common_axis :=
        FactorScatterPlotter.common_axis self;
      FactorScatterPlotter.class_name :=
        FactorScatterPlotter.class_name self |},
   ([plt.figure (FactorScatterPlotter.figsize self)],
    Throw (Builtin IndexError))).
Proof.
  intros Hfactor Hnames Hentry Hfew.
  assert (Hlen : length (np_unique_array (PValue.squeeze entry)) < 2).
  { destruct entry as [| c [| c' cs]]; simpl; try lia.
    change (length (np_unique (c :: c' :: cs)) < 2).
    now rewrite length_np_unique. }
  unfold FactorScatterPlotter._visualise.
  cbv beta iota zeta delta [vbind vget emit vput].
  rewrite Hfactor. cbv beta iota zeta delta [builtin vret].
  rewrite Hnames. cbv beta iota zeta delta [builtin vret].
  rewrite str_dict_get_find, Hentry. cbv beta iota zeta.
  destruct (np_unique_array (PValue.squeeze entry)) as [| c1 [| c2 rest]];
    simpl in Hlen; try lia; reflexivity.
Qed.

(** *** The factor line plotter *)

Lemma In_enumerate_from {X : Type} (l : list X) :
  forall i0 i x,
    In (i, x) (enumerate_from i0 l) <->
    i0 <= i /\ nth_error l (i - i0) = Some x.
Proof.
  induction l as [| y l IH]; intros i0 i x; simpl.
  - split; [intros [] |]. intros [_ H]. destruct (i - i0); discriminate.
  - rewrite IH. split.
    + intros [Heq | [Hle Hnth]].
      * inversion Heq; subst. rewrite Nat.sub_diag. split; [lia | reflexivity].
      * split; [lia |]. replace (i - i0) with (S (i - S i0)) by lia. exact Hnth.
    + intros [Hle Hnth]. destruct (Nat.eq_dec i i0) as [-> | Hne].
      * rewrite Nat.sub_diag in Hnth. simpl in Hnth. left. congruence.
      * right. split; [lia |].
        replace (i - i0) with (S (i - S i0)) in Hnth by lia. exact Hnth.
Qed.

Lemma returns_iff_vret {St A : Type} (a : A) : returns_iff True (@vret St A a).
Proof. intros s. left. split; [exact I | now exists a]. Qed.

Lemma returns_iff_emit {St : Type} (c : plt.call) :
  returns_iff True (@emit St c).
Proof. intros s. left. split; [exact I | now exists tt]. Qed.

Lemma returns_iff_getitem {St A : Type} (xs : list A) (i : nat) :
  returns_iff (i < length xs) (@builtin St A (getitem xs i)).
Proof.
  intros s. unfold getitem. destruct (nth_error xs i) as [a |] eqn:Hnth.
  - left. split; [apply nth_error_Some; congruence | now exists a].
  - right. split; [apply nth_error_None in Hnth; lia | reflexivity].
Qed.

Lemma returns_iff_py_getitem {St A : Type} (xs : list A) (i : Z) :
  returns_iff (- Z.of_nat (length xs) <= i < Z.of_nat (length xs))%Z
              (@builtin St A (py_getitem xs i)).
Proof.
  intros s. destruct (py_getitem_cases xs i) as [[Hin (a & ->)] | [Hout ->]].
  - left. split; [exact Hin | now exists a].
  - right. split; [lia | reflexivity].
Qed.

Lemma returns_iff_vbind {St A B : Type} (P Q : Prop) (m : V St A)
  (k : A -> V St B) :
  returns_iff P m -> (forall a, returns_iff Q (k a)) ->
  returns_iff (P /\ Q) (vbind m k).
Proof.
  intros Hm Hk s. rewrite vbind_run.
  destruct (Hm s) as [[HP (a & ->)] | [HP ->]].
  - destruct (Hk a (state_after (m s))) as [[HQ (b & Hb)] | [HQ Hb]].
    + left. split; [tauto |]. exists b. exact Hb.
    + right. split; [tauto |]. exact Hb.
  - right. split; [tauto | reflexivity].
Qed.

Lemma returns_iff_equiv {St A : Type} (P Q : Prop) (m : V St A) :
  returns_iff P m -> (P <-> Q) -> returns_iff Q m.
Proof.
  intros Hm HPQ s. destruct (Hm s) as [[HP H] | [HP H]]; [left | right];
    (split; [tauto | exact H]).
Qed.

Ltac returns_iff :=
  repeat first
    [ apply returns_iff_vret | apply returns_iff_emit
    | apply returns_iff_getitem | apply returns_iff_py_getitem
    | eapply returns_iff_vbind; [| intros] ].

Section FactorLinePlotterFacts.

Variable normalised : ndarray2 -> ndarray2.

Lemma line_subplot_keeps (self : FactorLinePlotter.t)
  (data_reader : PlotDataReader) (factor_matrices : list ndarray2)
  (num_cols : nat) (imode : nat * Z) :
  keeps_state (FactorLinePlotter.subplot normalised self data_reader
                 factor_matrices num_cols imode).
Proof.
  unfold FactorLinePlotter.subplot, FactorLinePlotter._visualise_mode. keeps.
Qed.

Lemma line_subplot_returns_iff (self : FactorLinePlotter.t)
  (data_reader : PlotDataReader) (factor_matrices : list ndarray2)
  (num_cols i : nat) (m : Z) :
  returns_iff (line_plot_ok self data_reader (length factor_matrices) i m)
              (FactorLinePlotter.subplot normalised self data_reader
                 factor_matrices num_cols (i, m)).
Proof.
  unfold FactorLinePlotter.subplot, FactorLinePlotter._visualise_mode,
    line_plot_ok.
  cbn [fst snd].
  destruct (FactorLinePlotter.labels self) as [ls |],
           (mode_names data_reader) as [names |],
           (FactorLinePlotter.show_legend self);
    try destruct (Z.gtb_spec (Z.of_nat (length names)) m);
    (eapply returns_iff_equiv; [returns_iff |]);
    change (Z.of_nat (length ascii_lowercase)) with 26%Z;
    intuition (try discriminate; try lia).
Qed.

(** X16. The factor line plotter returns exactly when, for every mode [m]
    listed at position [i]: [m] names one of the [n] factor matrices
    ([-n <= m < n]); a label exists for position [i] when labels are given;
    [m] is not below [-len(mode_names)] when the data reader has more than
    [m] mode names; and [-26 <= m < 26] when the legend is shown, the
    legend letter being taken from the lowercase alphabet.  In every other
    case it raises [IndexError].  It leaves the plotter as it was. *)
Theorem line_plot_returns_iff (self : FactorLinePlotter.t)
  (factor_matrices : list ndarray2) (data_reader : PlotDataReader) :
  let run := FactorLinePlotter._visualise normalised factor_matrices
               data_reader self in
  (answered run = Return tt <->
   forall i m, nth_error (FactorLinePlotter.modes self) i = Some m ->
               line_plot_ok self data_reader (length factor_matrices) i m) /\
  (forall e, answered run = Throw e -> e = Builtin IndexError) /\
  state_after run = self.
Proof.
  simpl. unfold FactorLinePlotter._visualise.
  cbv beta iota zeta delta [vbind vget emit].
  set (body := FactorLinePlotter.subplot normalised self data_reader
                 factor_matrices (length (FactorLinePlotter.modes self))).
  pose proof (keeps_state_vfor
                (enumerate_from 0 (FactorLinePlotter.modes self)) body
                (fun x => line_subplot_keeps self data_reader factor_matrices
                            _ x) self) as Hkeep.
  pose proof (vfor_returns
                (enumerate_from 0 (FactorLinePlotter.modes self)) body self
                (fun x => line_subplot_keeps self data_reader factor_matrices
                            _ x)) as Hret.
  pose proof (vfor_throws
                (enumerate_from 0 (FactorLinePlotter.modes self)) body
                (fun e => e = Builtin IndexError)) as Hthrow.
  destruct (vfor (enumerate_from 0 (FactorLinePlotter.modes self)) body self)
    as [s' [l r]] eqn:Hrun.
  unfold state_after, answered in *. simpl in *. subst s'.
  split; [| split; [| reflexivity]].
  - rewrite Hret. split.
    + intros H i m Hnth.
      assert (Hin : In (i, m)
                       (enumerate_from 0 (FactorLinePlotter.modes self)))
        by (apply In_enumerate_from; rewrite Nat.sub_0_r; split; [lia | auto]).
      specialize (H _ Hin).
      destruct (line_subplot_returns_iff self data_reader factor_matrices
                  (length (FactorLinePlotter.modes self)) i m self)
        as [[Hok _] | [_ Hfail]]; [exact Hok |].
      unfold answered in Hfail. fold body in Hfail. congruence.
    + intros H [i m] Hin. apply In_enumerate_from in Hin.
      rewrite Nat.sub_0_r in Hin. destruct Hin as [_ Hnth].
      destruct (line_subplot_returns_iff self data_reader factor_matrices
                  (length (FactorLinePlotter.modes self)) i m self)
        as [[_ ([] & Hok)] | [Hnot _]]; [exact Hok |].
      exfalso. apply Hnot. now apply H.
  - intros e He.
    assert (Hrun' : snd (snd (vfor (enumerate_from 0
                                      (FactorLinePlotter.modes self))
                                   body self)) = Throw e)
      by (rewrite Hrun; exact He).
    revert Hrun'. apply Hthrow.
    intros [i m] s e' Hx.
    destruct (line_subplot_returns_iff self data_reader factor_matrices
                (length (FactorLinePlotter.modes self)) i m s)
      as [[_ (a & Hok)] | [_ Hfail]];
      unfold answered in *; fold body in Hok || fold body in Hfail;
      congruence.
Qed.

End FactorLinePlotterFacts.

(** *** The points of the factor scatter plotter *)














Section FactorScatterPlotterFacts.

Variable normalised : ndarray2 -> ndarray2.
Variables np_min np_max : ndarray2 -> result float.



End FactorScatterPlotterFacts.

(** *** The failures of the class line plotter *)

(** X17. The failures of the class line plotter.  A mode that names no
    factor matrix raises [IndexError] when the figure and its subplot exist
    and nothing is drawn; a class name that is not a key raises [KeyError],
    and a class vector of one entry, which [squeeze] turns into a
    zero-dimensional array, raises [TypeError], both after the factor
    matrix has been drawn and before any red line. *)
Theorem class_line_plotter_failures
  (get_ylim : list (list float) -> float * float)
  (self : ClassLinePlotter.t) (factor_matrices : list ndarray2)
  (data_reader : PlotDataReader) :
  let run := ClassLinePlotter._visualise get_ylim factor_matrices
               data_reader self in
  let n := Z.of_nat (length factor_matrices) in
  ((ClassLinePlotter.mode self < - n \/ n <= ClassLinePlotter.mode self)%Z ->
   run = (self,
          ([plt.figure (ClassLinePlotter.figsize self);
            plt.add_subplot 1 1 1],
           Throw (Builtin IndexError)))) /\
  (forall factor by_name,
     py_getitem factor_matrices (ClassLinePlotter.mode self) = Ok factor ->
     py_getitem (plot_classes data_reader) (ClassLinePlotter.mode self) =
       Ok by_name ->
     (str_dict_find by_name (ClassLinePlotter.class_name self) = None ->
      run = (self,
             ([plt.figure (ClassLinePlotter.figsize self);
               plt.add_subplot 1 1 1; plt.plot (rows factor)],
              Throw KeyError))) /\
     (forall c,
        str_dict_find by_name (ClassLinePlotter.class_name self) = Some [c] ->
        run = (self,
               ([plt.figure (ClassLinePlotter.figsize self);
                 plt.add_subplot 1 1 1; plt.plot (rows factor)],
                Throw (Builtin TypeError))))).
Proof.
  simpl. split.
  - intros Hout. unfold ClassLinePlotter._visualise.
    cbv beta iota zeta delta [vbind vget emit].
    rewrite (py_getitem_out_of_range factor_matrices Hout). reflexivity.
  - intros factor by_name Hfactor Hnames. split.
    + intros Hnone. unfold ClassLinePlotter._visualise.
      cbv beta iota zeta delta [vbind vget emit].
      rewrite Hfactor. cbv beta iota zeta delta [builtin vret].
      rewrite Hnames. cbv beta iota zeta delta [builtin vret].
      rewrite str_dict_get_find, Hnone. reflexivity.
    + intros c Hone. unfold ClassLinePlotter._visualise.
      cbv beta iota zeta delta [vbind vget emit].
      rewrite Hfactor. cbv beta iota zeta delta [builtin vret].
      rewrite Hnames. cbv beta iota zeta delta [builtin vret].
      rewrite str_dict_get_find, Hone. reflexivity.
Qed.

(** *** The visualisers on examples *)

Lemma class_lines_at_class_changes_witness :
  ClassLinePlotter._visualise fixed_ylim six_samples sample_reader
    {| ClassLinePlotter.figsize := (4, 3)%float;
       ClassLinePlotter.mode := 0;
       ClassLinePlotter.class_name := "diagnosis" |} =
  ({| ClassLinePlotter.figsize := (4, 3)%float;
      ClassLinePlotter.mode := 0;
      ClassLinePlotter.class_name := "diagnosis" |},
   ([plt.figure (4, 3)%float; plt.add_subplot 1 1 1;
     plt.plot [[1; 2]; [3; 4]; [5; 6]; [7; 8]; [9; 10]; [11; 12]]%float]
    ++ map (red_line (0, 12)%float) (changes_from 0 [2; 2; 5; 5; 2; 9]%Z)
    ++ [plt.set_ylim 0 12],
    Return tt)).
Proof.
  assert (Hlen : length [2; 2; 5; 5; 2; 9]%Z <> 1) by (simpl; lia).
  exact (proj1 (@class_lines_at_class_changes fixed_ylim
                  {| ClassLinePlotter.figsize := (4, 3)%float;
                     ClassLinePlotter.mode := 0;
                     ClassLinePlotter.class_name := "diagnosis" |}
                  six_samples sample_reader _ _ _
                  eq_refl eq_refl eq_refl Hlen)).
Defined.

Lemma figure_widens_with_every_call_witness :
  let self := {| SingleComponentLinePlotter.figsize := (4, 3)%float;
                 SingleComponentLinePlotter.mode := 1;
                 SingleComponentLinePlotter.normalise := true;
                 SingleComponentLinePlotter.label := None |} in
  let call := SingleComponentLinePlotter._visualise no_normalisation
                six_samples sample_reader in
  hd_error (plotted (call (state_after (call (state_after (call self)))))) =
  Some (plt.figure (16, 3)%float).
Proof.
  intros self call.
  destruct (@figure_widens_with_every_call no_normalisation self six_samples
              sample_reader _ eq_refl 2) as [Hsize Hfig].
  etransitivity; [exact Hfig |]. apply f_equal. apply f_equal.
  etransitivity; [exact Hsize |]. vm_compute. reflexivity.
Defined.

Lemma scatter_needs_two_classes_witness :
  answered (FactorScatterPlotter._visualise no_normalisation
              (fun _ => Ok 1%float) (fun _ => Ok 12%float)
              six_samples sample_reader
              {| FactorScatterPlotter.figsize := (4, 3)%float;
                 FactorScatterPlotter.mode := 0;
                 FactorScatterPlotter.normalise := false;
                 FactorScatterPlotter.label := None;
                 FactorScatterPlotter.legend := None;
                 FactorScatterPlotter.common_axis := true;
                 FactorScatterPlotter.class_name := "site" |}) =
  Throw (Builtin IndexError).
Proof.
  assert (Hfew : distinct_count [3; 3; 3; 3; 3; 3]%Z < 2)
    by (vm_compute; lia).
  rewrite (@scatter_needs_two_classes no_normalisation
             (fun _ => Ok 1%float) (fun _ => Ok 12%float)
             {| FactorScatterPlotter.figsize := (4, 3)%float;
                FactorScatterPlotter.mode := 0;
                FactorScatterPlotter.normalise := false;
                FactorScatterPlotter.label := None;
                FactorScatterPlotter.legend := None;
                FactorScatterPlotter.common_axis := true;
                FactorScatterPlotter.class_name := "site" |}
             six_samples sample_reader _ _ _ eq_refl eq_refl eq_refl Hfew).
  reflexivity.
Defined.

Lemma line_plot_returns_iff_witness :
  answered (FactorLinePlotter._visualise no_normalisation six_samples
              sample_reader
              {| FactorLinePlotter.figsize := (4, 3)%float;
                 FactorLinePlotter.modes := [1; -2]%Z;
                 FactorLinePlotter.labels := Some ["a"%string; "b"%string];
                 FactorLinePlotter.show_legend := true;
                 FactorLinePlotter.normalise := false |}) = Return tt.
Proof.
  apply (proj1 (line_plot_returns_iff no_normalisation
                  {| FactorLinePlotter.figsize := (4, 3)%float;
                     FactorLinePlotter.modes := [1; -2]%Z;
                     FactorLinePlotter.labels :=
                       Some ["a"%string; "b"%string];
                     FactorLinePlotter.show_legend := true;
                     FactorLinePlotter.normalise := false |}
                  six_samples sample_reader)).
  intros i m Hnth. unfold line_plot_ok. simpl.
  destruct i as [| [| i]]; simpl in Hnth; inversion Hnth; subst;
    try (destruct i; discriminate);
    repeat split; try lia.
Defined.

Lemma class_line_plotter_failures_witness :
  answered (ClassLinePlotter._visualise fixed_ylim six_samples sample_reader
              {| ClassLinePlotter.figsize := (4, 3)%float;
                 ClassLinePlotter.mode := 2;
                 ClassLinePlotter.class_name := "diagnosis" |}) =
    Throw (Builtin IndexError) /\
  answered (ClassLinePlotter._visualise fixed_ylim six_samples sample_reader
              {| ClassLinePlotter.figsize := (4, 3)%float;
                 ClassLinePlotter.mode := 0;
                 ClassLinePlotter.class_name := "age" |}) =
    Throw KeyError.
Proof.
  split.
  - rewrite (proj1 (class_line_plotter_failures fixed_ylim
                      {| ClassLinePlotter.figsize := (4, 3)%float;
                         ClassLinePlotter.mode := 2;
                         ClassLinePlotter.class_name := "diagnosis" |}
                      six_samples sample_reader));
      [reflexivity | simpl; lia].
  - rewrite (proj1 (proj2 (class_line_plotter_failures fixed_ylim
                             {| ClassLinePlotter.figsize := (4, 3)%float;
                                ClassLinePlotter.mode := 0;
                                ClassLinePlotter.class_name := "age" |}
                             six_samples sample_reader)
                      _ _ eq_refl eq_refl));
      reflexivity.
Defined.

